(** * ToriLLE solo environments ([torille/envs/solo_envs.py])

    A shallow embedding of the three reward functions and of the two
    single-body adapters [SoloToriEnv] and [SoloContToriEnv], followed by the
    properties their description states.

    Conventions of the embedding:
    - Python floats and the elements of float ndarrays are real numbers [R]
      with exact arithmetic; Python ints are [Z].  Where the rounding of
      the machine numbers decides a property, the continuous action hook
      is modelled a second time on IEEE binary64 numbers
      ([SoloContToriEnv64]).
    - A Python exception is a value of [exn]; code that may raise returns a
      [result].
    - Objects that are mutated in place (the action list, the action ndarray)
      live in a store indexed by references, so that aliasing between the
      caller's object and the object the method works on is visible. *)

From Stdlib Require Import Reals Lra Lia ZArith.
From stdpp Require Import gmap strings list fin_maps.
From Stdlib Require Floats.

(** ** Python results *)

Inductive exn : Type :=
| KeyError (key : string)
| IndexError
| TypeError
| ValueError.

Inductive result (A : Type) : Type :=
| Ok (a : A)
| Raise (e : exn).
Arguments Ok {A} a.
Arguments Raise {A} e.

Definition rbind {A B} (r : result A) (k : A -> result B) : result B :=
  match r with
  | Ok a => k a
  | Raise e => Raise e
  end.

(** ** Constants of the simulator binding

    [torille.ToribashConstants] is not part of this file; its four counts are
    taken as parameters. *)

Class ToribashConstants : Type := {
  NUM_JOINTS : nat;
  NUM_JOINT_STATES : Z;
  NUM_LIMBS : nat;
  NUM_CONTROLLABLES : nat
}.

(** ** Simulator state

    The two fields this file reads: the injury of player 1 and the limb
    positions, an array indexed by [player][limb][coordinate]. *)

Record State : Type := {
  plr0_injury : R;
  limb_positions : list (list (list R))
}.

(** ** Reward functions *)

(** [math.log10]; it is only ever called on an argument above 1. *)
Definition log10 (x : R) : R := (ln x / ln 10)%R.

Definition reward_self_destruct (old_state new_state : State) : R :=
  let reward := (plr0_injury new_state - plr0_injury old_state)%R in
  let reward := if Rlt_dec 1 reward then (log10 reward / 4)%R else reward in
  reward.

Definition reward_stay_safe (old_state new_state : State) : R :=
  let reward := (- (plr0_injury old_state - plr0_injury new_state))%R in
  let reward := if Rlt_dec 1 reward then (log10 reward / 4)%R else reward in
  (- reward)%R.

(** [np.sum(pos**2)]; over the reals the order of summation is immaterial. *)
Definition np_sum (v : list R) : R := foldl Rplus 0%R v.
Definition np_square (v : list R) : list R := map (fun x => (x ^ 2)%R) v.

(** [a[0]] along the first axis: [IndexError] on an empty axis. *)
Definition index0 {A : Type} (a : list A) : result A :=
  match a with
  | x :: _ => Ok x
  | [] => Raise IndexError
  end.

(** [a[0,0]] on a three-dimensional array: player 0, then limb 0. *)
Definition index00 (a : list (list (list R))) : result (list R) :=
  rbind (index0 a) index0.

Definition reward_run_away (old_state new_state : State) : result R :=
  rbind (index00 (limb_positions old_state)) (fun old_pos =>
  rbind (index00 (limb_positions new_state)) (fun new_pos =>
  let moved := (sqrt (np_sum (np_square new_pos))
                - sqrt (np_sum (np_square old_pos)))%R in
  Ok moved)).

(** The injury delta d the description of the injury rewards speaks of. *)
Definition injury_delta (old_state new_state : State) : R :=
  (plr0_injury new_state - plr0_injury old_state)%R.

(** The Euclidean norm of a point in space, as the description words it. *)
Definition euclidean_norm (x y z : R) : R := sqrt (x * x + y * y + z * z)%R.

(** ** Spaces of the Gym framework

    [MultiDiscrete] receives one entry per dimension.  The source writes an
    entry either as a pair [[min, max]] (the older encoding, values
    [min..max]) or as a single count [n] (values [0..n-1]). *)

Inductive dim_spec : Type :=
| DRange (lo hi : Z)
| DSize (n : Z).

Definition dim_admits (d : dim_spec) (v : Z) : bool :=
  match d with
  | DRange lo hi => (lo <=? v)%Z && (v <=? hi)%Z
  | DSize n => (0 <=? v)%Z && (v <? n)%Z
  end.

Inductive space : Type :=
| MultiDiscrete (dims : list dim_spec)
| Box (low high : R) (shape : list nat).

(** ** Keyword arguments

    The values a configuration can carry: a reward callable, or something
    that is not callable. *)

Inductive pyval : Type :=
| PyCallable (f : State -> State -> result R)
| PyInt (z : Z)
| PyStr (s : string)
| PyNone.

(** [kwargs[key]] *)
Definition getitem (kwargs : gmap string pyval) (key : string) : result pyval :=
  match kwargs !! key with
  | Some v => Ok v
  | None => Raise (KeyError key)
  end.

(** [f(old_state, new_state)] for an arbitrary Python value [f]. *)
Definition call2 (f : pyval) (old_state new_state : State) : result R :=
  match f with
  | PyCallable g => g old_state new_state
  | _ => Raise TypeError
  end.

(** ** The store and its monad

    A computation receives the store and returns the store it leaves behind
    together with a value or an exception; a raise keeps the writes made
    before it. *)

Abbreviation loc := positive.

Section StoreMonad.
Context {Obj : Type}.

Definition M (A : Type) : Type := gmap loc Obj -> gmap loc Obj * result A.

Definition ret {A} (a : A) : M A := fun h => (h, Ok a).
Definition raise {A} (e : exn) : M A := fun h => (h, Raise e).
Definition bind {A B} (m : M A) (k : A -> M B) : M B :=
  fun h =>
    match m h with
    | (h', Ok a) => k a h'
    | (h', Raise e) => (h', Raise e)
    end.

(** [for i in l: body(i)], and [for i in range(n): body(i)] *)
Fixpoint for_each (l : list nat) (body : nat -> M unit) : M unit :=
  match l with
  | [] => ret tt
  | i :: l' => bind (body i) (fun _ => for_each l' body)
  end.
Definition for_range (n : nat) (body : nat -> M unit) : M unit :=
  for_each (seq 0 n) body.

End StoreMonad.
Arguments M Obj A : clear implicits.

Notation "'let*' x ':=' m 'in' k" := (bind m (fun x => k))
  (at level 10, x name, m at level 100, k at level 200).
Notation "m1 ';;' m2" := (bind m1 (fun _ => m2))
  (at level 100, m2 at level 200, right associativity).

(** ** SoloToriEnv: the discrete adapter *)

(** An action handed to the discrete adapter is a Python list of ints or
    some other sequence of ints (a tuple, an integer ndarray). *)
Inductive pyseq : Type :=
| PyList (items : list Z)
| PyOtherSeq (items : list Z).

Definition seq_items (o : pyseq) : list Z :=
  match o with
  | PyList items => items
  | PyOtherSeq items => items
  end.

Module SoloToriEnv.
Section WithConstants.
Context {tc : ToribashConstants}.
(** The base class [ToriEnv] lives in another file: its instances and its
    constructor are parameters. *)
Context {ToriEnv : Type} (ToriEnv_init : gmap string pyval -> result ToriEnv).

Record t : Type := {
  base : ToriEnv;
  reward_func : pyval;
  action_space : space;
  observation_space : space
}.

Definition __init__ (platform : string) (kwargs : gmap string pyval) : result t :=
  rbind (ToriEnv_init kwargs) (fun super =>
  rbind (getitem kwargs "reward_func") (fun reward_func =>
  let action_space :=
    if String.eqb platform "win32" then
      MultiDiscrete (replicate NUM_JOINTS (DRange 0 (NUM_JOINT_STATES - 1))
                     ++ replicate 2 (DRange 0 1))
    else
      MultiDiscrete (replicate NUM_JOINTS (DSize NUM_JOINT_STATES)
                     ++ replicate 2 (DSize 1)) in
  let observation_space := Box (-30) 30 [NUM_LIMBS * 3] in
  Ok {| base := super; reward_func := reward_func;
        action_space := action_space;
        observation_space := observation_space |})).

Definition _preprocess_observation (state : State) : result (list R) :=
  rbind (index0 (limb_positions state)) (fun plr0 => Ok (concat plr0)).

(** [type(action) != list] *)
Definition type_is_not_list (action : loc) : M pyseq bool :=
  fun h =>
    match h !! action with
    | Some (PyList _) => (h, Ok false)
    | Some (PyOtherSeq _) => (h, Ok true)
    | None => (h, Raise TypeError)
    end.

(** [list(action)]: a new list object with the same items. *)
Definition list_of (action : loc) : M pyseq loc :=
  fun h =>
    match h !! action with
    | Some o => let l := fresh (dom h) in (<[l := PyList (seq_items o)]> h, Ok l)
    | None => (h, Raise TypeError)
    end.

(** [action[i] += 1] on a list object: read, add, write back in place. *)
Definition iadd_item (action : loc) (i : nat) (d : Z) : M pyseq unit :=
  fun h =>
    match h !! action with
    | Some (PyList items) =>
        match items !! i with
        | Some x => (<[action := PyList (<[i := (x + d)%Z]> items)]> h, Ok tt)
        | None => (h, Raise IndexError)
        end
    | _ => (h, Raise TypeError)
    end.

(** The result [[action, [1]*NUM_CONTROLLABLES]]: player 1's sequence is
    given by reference, since it may be the very list the caller passed;
    player 2's is a new list and is given by its items. *)
Definition _preprocess_action (action : loc) : M pyseq (loc * list Z) :=
  let* not_list := type_is_not_list action in
  let* action := (if not_list : bool then list_of action else ret action) in
  for_range NUM_JOINTS (fun i => iadd_item action i 1) ;;
  ret (action, replicate NUM_CONTROLLABLES 1%Z).

Definition _reward_function (self : t) (old_state new_state : State) : result R :=
  call2 (reward_func self) old_state new_state.

End WithConstants.
End SoloToriEnv.

(** ** SoloContToriEnv: the continuous adapter *)

(** numpy on reals.  [np.clip(x, lo, hi)] is [minimum(maximum(x, lo), hi)];
    [np.floor] yields a whole number, still as a float. *)
Definition np_clip (x lo hi : R) : R := Rmin (Rmax x lo) hi.
Definition np_floor (x : R) : R := IZR (Zfloor x).

(** [astype(np.int32)] drops the fractional part (rounds towards zero).
    The numbers converted in this file are whole and lie between 0 and 4, so
    the width of the integer type plays no role. *)
Definition astype_int (x : R) : Z :=
  if Rle_dec 0 x then Zfloor x else (- Zfloor (- x))%Z.

Module SoloContToriEnv.
Section WithConstants.
Context {tc : ToribashConstants}.
Context {ToriEnv : Type} (ToriEnv_init : gmap string pyval -> result ToriEnv).

Record t : Type := {
  base : ToriEnv;
  reward_func : pyval;
  action_space : space;
  observation_space : space
}.

Definition __init__ (kwargs : gmap string pyval) : result t :=
  rbind (ToriEnv_init kwargs) (fun super =>
  rbind (getitem kwargs "reward_func") (fun reward_func =>
  let action_space := Box 0 (39 / 10) [NUM_CONTROLLABLES] in
  let observation_space := Box (-30) 30 [NUM_LIMBS * 3] in
  Ok {| base := super; reward_func := reward_func;
        action_space := action_space;
        observation_space := observation_space |})).

Definition _preprocess_observation (state : State) : result (list R) :=
  rbind (index0 (limb_positions state)) (fun plr0 => Ok (concat plr0)).

(** The action is a float ndarray: the store maps its reference to its
    elements. *)

(** [action += d]: every element is updated in place. *)
Definition iadd_all (action : loc) (d : R) : M (list R) unit :=
  fun h =>
    match h !! action with
    | Some a => (<[action := map (fun x => (x + d)%R) a]> h, Ok tt)
    | None => (h, Raise TypeError)
    end.

(** [action[:-k]]: the elements but the last [k], as a new array. *)
Definition get_init (action : loc) (k : nat) : M (list R) (list R) :=
  fun h =>
    match h !! action with
    | Some a => (h, Ok (take (length a - k) a))
    | None => (h, Raise TypeError)
    end.

(** [action[:-k] = vs] with [vs] of the length of the slice. *)
Definition set_init (action : loc) (k : nat) (vs : list R) : M (list R) unit :=
  fun h =>
    match h !! action with
    | Some a =>
        if decide (length vs = length a - k)
        then (<[action := vs ++ drop (length a - k) a]> h, Ok tt)
        else (h, Raise ValueError)
    | None => (h, Raise TypeError)
    end.

(** [action[-k]] for [k >= 1]: [IndexError] on fewer than [k] elements. *)
Definition get_neg (action : loc) (k : nat) : M (list R) R :=
  fun h =>
    match h !! action with
    | Some a =>
        if decide (k <= length a)
        then match a !! (length a - k) with
             | Some x => (h, Ok x)
             | None => (h, Raise IndexError)
             end
        else (h, Raise IndexError)
    | None => (h, Raise TypeError)
    end.

(** [action[-k] = v] *)
Definition set_neg (action : loc) (k : nat) (v : R) : M (list R) unit :=
  fun h =>
    match h !! action with
    | Some a =>
        if decide (k <= length a)
        then (<[action := <[length a - k := v]> a]> h, Ok tt)
        else (h, Raise IndexError)
    | None => (h, Raise TypeError)
    end.

(** [list(action.astype(np.int32))]: a new list, given by its items. *)
Definition astype_int_list (action : loc) : M (list R) (list Z) :=
  fun h =>
    match h !! action with
    | Some a => (h, Ok (map astype_int a))
    | None => (h, Raise TypeError)
    end.

Definition _preprocess_action (action : loc) : M (list R) (list Z * list Z) :=
  iadd_all action 1 ;;
  let* joints := get_init action 2 in
  set_init action 2 (map np_floor (map (fun x => np_clip x 0 (49 / 10)) joints)) ;;
  let* g := get_neg action 2 in
  set_neg action 2 (np_floor (np_clip (g - 1) 0 (19 / 10))) ;;
  let* g := get_neg action 1 in
  set_neg action 1 (np_floor (np_clip (g - 1) 0 (19 / 10))) ;;
  let* action := astype_int_list action in
  ret (action, replicate NUM_CONTROLLABLES 1%Z).

Definition _reward_function (self : t) (old_state new_state : State) : result R :=
  call2 (reward_func self) old_state new_state.

End WithConstants.
End SoloContToriEnv.

(** A concrete set of constants, used where a property is run on data: a
    body of 20 joints with 4 states each, 21 limbs, and the 20 joints plus
    2 grips as controllables. *)
Definition toribash : ToribashConstants :=
  {| NUM_JOINTS := 20; NUM_JOINT_STATES := 4; NUM_LIMBS := 21;
     NUM_CONTROLLABLES := 22 |}.

(** ** Reference functions of the description *)

(** A list whose entries k .. k+m-1 are one higher, the others as before. *)
Definition incremented (k m : nat) (items : list Z) : list Z :=
  take k items ++ map (fun x => (x + 1)%Z) (take m (drop k items))
  ++ drop (k + m) items.

(** The code of a joint and of a grip, as the description words them:
    floor(clip(v+1, 0, 4.9)) and floor(clip(v, 0, 1.9)). *)
Definition joint_code (v : R) : Z := Zfloor (np_clip (v + 1) 0 (49 / 10)).
Definition grip_code (v : R) : Z := Zfloor (np_clip v 0 (19 / 10)).

(** ** Sample data on which the properties are run *)

(** A store whose object 1 is the all-zeros list, resp. the all-zeros
    array, of 22 entries. *)
Definition zeros_list_store : gmap loc pyseq :=
  {[ 1%positive := PyList (replicate 22 0%Z) ]}.
Definition zeros_array_store : gmap loc (list R) :=
  {[ 1%positive := replicate 22 0%R ]}.

(** A state by its injury and the head position of its only player. *)
Definition state_of (injury x y z : R) : State :=
  {| plr0_injury := injury; limb_positions := [[[x; y; z]]] |}.

(** A state of two players at rest, 21 limbs each. *)
Definition state_at_rest : State :=
  {| plr0_injury := 0;
     limb_positions := [replicate 21 [0; 0; 0]; replicate 21 [1; 1; 1]]%R |}.

(** ** Membership in a space

    What Gym's [contains] checks: a [MultiDiscrete] space holds the int
    sequences with one admitted value per dimension, a [Box] of shape [(n,)]
    the arrays of n reals between its bounds. *)

Definition multidiscrete_contains (dims : list dim_spec) (items : list Z) : Prop :=
  Forall2 (fun d v => dim_admits d v = true) dims items.

Definition box_contains (low high : R) (shape : list nat) (a : list R) : Prop :=
  shape = [length a] /\ Forall (fun v => (low <= v <= high)%R) a.

Definition contains_ints (sp : space) (items : list Z) : Prop :=
  match sp with
  | MultiDiscrete dims => multidiscrete_contains dims items
  | Box _ _ _ => False
  end.

Definition contains_reals (sp : space) (a : list R) : Prop :=
  match sp with
  | MultiDiscrete _ => False
  | Box low high shape => box_contains low high shape a
  end.

(** A state without a head for player 1: no player at all, or a first
    player without limbs. *)
Definition head_missing (state : State) : Prop :=
  limb_positions state = [] \/ exists others, limb_positions state = [] :: others.

(** Stores with a sequence that is too short or longer than expected, and
    a configuration whose reward function cannot be called. *)
Definition short_list_store : gmap loc pyseq :=
  {[ 1%positive := PyList [5; 6; 7]%Z ]}.
Definition short_tuple_store : gmap loc pyseq :=
  {[ 1%positive := PyOtherSeq [5; 6; 7]%Z ]}.
Definition long_list_store : gmap loc pyseq :=
  {[ 1%positive := PyList (replicate 25 0%Z) ]}.
Definition short_array_store : gmap loc (list R) :=
  {[ 1%positive := [0%R] ]}.
Definition config_none : gmap string pyval :=
  {[ "reward_func" := PyNone ]}.

(** A state that holds no player. *)
Definition state_no_player : State :=
  {| plr0_injury := 0; limb_positions := [] |}.

(** ** The continuous action hook on binary64 numbers

    The elements of a float64 ndarray are the kernel's binary64 numbers;
    [+] and [-] on them round to nearest, ties to even. *)

Module Float64.
Import PrimFloat SpecFloat FloatOps.

(** The Python literals [1], [0], [4.9] and [1.9] as float64 (the last two
    are the doubles nearest to the decimals). *)
Definition zero : float := 0%float.
Definition one : float := 1%float.
Definition c4_9 : float := 0x1.399999999999ap+2%float.
Definition c1_9 : float := 0x1.e666666666666p+0%float.

Definition is_nan (x : float) : bool := negb (PrimFloat.eqb x x).

(** [np.maximum] and [np.minimum] return the first argument when the
    comparison holds or the first argument is a nan, the second otherwise;
    [np.clip(x, lo, hi)] is [minimum(maximum(x, lo), hi)]. *)
Definition np_maximum (a b : float) : float :=
  if PrimFloat.leb b a || is_nan a then a else b.
Definition np_minimum (a b : float) : float :=
  if PrimFloat.leb a b || is_nan a then a else b.
Definition np_clip (x lo hi : float) : float :=
  np_minimum (np_maximum x lo) hi.

(** A whole number of magnitude below 2^63 as a float (exact up to 2^53). *)
Definition Z2float (k : Z) : float :=
  match k with
  | Z0 => 0%float
  | Zpos _ => PrimFloat.of_uint63 (Uint63Axioms.of_Z k)
  | Zneg p => PrimFloat.opp (PrimFloat.of_uint63 (Uint63Axioms.of_Z (Zpos p)))
  end.

(** [np.floor]: a number [(-1)^s * m * 2^e] with [e >= 0] is whole already;
    otherwise the mantissa is shifted right, which rounds towards minus
    infinity.  Zeros, infinities and nan are returned unchanged. *)
Definition np_floor (x : float) : float :=
  match Prim2SF x with
  | S754_finite s m e =>
      if (0 <=? e)%Z then x else Z2float (Z.shiftl (cond_Zopp s (Zpos m)) e)
  | _ => x
  end.

(** [astype(np.int32)] drops the fractional part.  What the conversion
    yields for nan, the infinities and numbers outside the int32 range
    depends on the platform: it is the parameter [unspecified]. *)
Definition astype_int32 (unspecified : float -> Z) (x : float) : Z :=
  match Prim2SF x with
  | S754_zero _ => 0
  | S754_finite s m e =>
      let t := cond_Zopp s (Z.shiftl (Zpos m) e) in
      if ((- 2 ^ 31 <=? t) && (t <? 2 ^ 31))%Z then t else unspecified x
  | _ => unspecified x
  end.

(** The real number a finite binary64 number stands for (0 for the
    others). *)
Definition to_R (x : float) : R :=
  match Prim2SF x with
  | S754_finite s m e =>
      if (0 <=? e)%Z then IZR (cond_Zopp s (Zpos m) * 2 ^ e)
      else (IZR (cond_Zopp s (Zpos m)) / IZR (2 ^ (- e)))%R
  | _ => 0%R
  end.

(** The double just below 1, [1 - 2^-53] (0.9999999999999999). *)
Definition below_one : float := 0x1.fffffffffffffp-1%float.

End Float64.

(** In-place operations on a one-dimensional ndarray of any element type,
    as the hook uses them. *)
Module NdArray.
Section WithElements.
Context {E : Type}.

(** [action += d], given as the function applied to every element. *)
Definition map_inplace (f : E -> E) (action : loc) : M (list E) unit :=
  fun h =>
    match h !! action with
    | Some a => (<[action := map f a]> h, Ok tt)
    | None => (h, Raise TypeError)
    end.

(** [action[:-k]]: the elements but the last [k], as a new array. *)
Definition get_init (action : loc) (k : nat) : M (list E) (list E) :=
  fun h =>
    match h !! action with
    | Some a => (h, Ok (take (length a - k) a))
    | None => (h, Raise TypeError)
    end.

(** [action[:-k] = vs] with [vs] of the length of the slice. *)
Definition set_init (action : loc) (k : nat) (vs : list E) : M (list E) unit :=
  fun h =>
    match h !! action with
    | Some a =>
        if decide (length vs = length a - k)
        then (<[action := vs ++ drop (length a - k) a]> h, Ok tt)
        else (h, Raise ValueError)
    | None => (h, Raise TypeError)
    end.

(** [action[-k]] for [k >= 1]: [IndexError] on fewer than [k] elements. *)
Definition get_neg (action : loc) (k : nat) : M (list E) E :=
  fun h =>
    match h !! action with
    | Some a =>
        if decide (k <= length a)
        then match a !! (length a - k) with
             | Some x => (h, Ok x)
             | None => (h, Raise IndexError)
             end
        else (h, Raise IndexError)
    | None => (h, Raise TypeError)
    end.

(** [action[-k] = v] *)
Definition set_neg (action : loc) (k : nat) (v : E) : M (list E) unit :=
  fun h =>
    match h !! action with
    | Some a =>
        if decide (k <= length a)
        then (<[action := <[length a - k := v]> a]> h, Ok tt)
        else (h, Raise IndexError)
    | None => (h, Raise TypeError)
    end.

(** [list(action.astype(t))], given as the conversion of one element: a new
    list, returned by its items. *)
Definition astype_list {T : Type} (conv : E -> T) (action : loc)
  : M (list E) (list T) :=
  fun h =>
    match h !! action with
    | Some a => (h, Ok (map conv a))
    | None => (h, Raise TypeError)
    end.

End WithElements.
End NdArray.

Module SoloContToriEnv64.
Section WithConstants.
Context {tc : ToribashConstants}.
Context (unspecified : PrimFloat.float -> Z).

Definition _preprocess_action (action : loc)
  : M (list PrimFloat.float) (list Z * list Z) :=
  NdArray.map_inplace (fun x => PrimFloat.add x Float64.one) action ;;
  let* joints := NdArray.get_init action 2 in
  NdArray.set_init action 2
    (map Float64.np_floor
       (map (fun x => Float64.np_clip x Float64.zero Float64.c4_9) joints)) ;;
  let* g := NdArray.get_neg action 2 in
  NdArray.set_neg action 2
    (Float64.np_floor
       (Float64.np_clip (PrimFloat.sub g Float64.one)
          Float64.zero Float64.c1_9)) ;;
  let* g := NdArray.get_neg action 1 in
  NdArray.set_neg action 1
    (Float64.np_floor
       (Float64.np_clip (PrimFloat.sub g Float64.one)
          Float64.zero Float64.c1_9)) ;;
  let* action :=
    NdArray.astype_list (Float64.astype_int32 unspecified) action in
  ret (action, replicate NUM_CONTROLLABLES 1%Z).

(** What the hook leaves in the array for a joint and for a grip, with the
    machine operations written out: floor(clip(v (+) 1, 0, 4.9)) and
    floor(clip((v (+) 1) (-) 1, 0, 1.9)), where (+) and (-) round; and the
    codes it returns, the same numbers as ints. *)
Definition floored_joint (v : PrimFloat.float) : PrimFloat.float :=
  Float64.np_floor
    (Float64.np_clip (PrimFloat.add v Float64.one) Float64.zero Float64.c4_9).
Definition floored_grip (v : PrimFloat.float) : PrimFloat.float :=
  Float64.np_floor
    (Float64.np_clip (PrimFloat.sub (PrimFloat.add v Float64.one) Float64.one)
       Float64.zero Float64.c1_9).
Definition joint_code (v : PrimFloat.float) : Z :=
  Float64.astype_int32 unspecified (floored_joint v).
Definition grip_code (v : PrimFloat.float) : Z :=
  Float64.astype_int32 unspecified (floored_grip v).

End WithConstants.
End SoloContToriEnv64.

(** Stores whose object 1 is the float64 array of 22 zeros, resp. of 22
    times the double just below 1. *)
Definition zeros_float_store : gmap loc (list PrimFloat.float) :=
  {[ 1%positive := replicate 22 Float64.zero ]}.
Definition below_one_store : gmap loc (list PrimFloat.float) :=
  {[ 1%positive := replicate 22 Float64.below_one ]}.

(** The value a conversion to int32 yields on x86-64 where the result is
    not specified. *)
Definition int32_indefinite (x : PrimFloat.float) : Z := (- 2 ^ 31)%Z.

(** * Properties *)

(** ** Reward functions *)

Section Rewards.
Local Open Scope R_scope.

Lemma ln_10_pos : 0 < ln 10.
Proof. rewrite <- ln_1. apply ln_increasing; lra. Qed.

Lemma log10_pos (x : R) : 1 < x -> 0 < log10 x.
Proof.
  intros Hx. unfold log10.
  apply Rdiv_lt_0_compat; [| apply ln_10_pos].
  rewrite <- ln_1. apply ln_increasing; lra.
Qed.

Lemma log10_10 : log10 10 = 1.
Proof. unfold log10. field. pose proof ln_10_pos. lra. Qed.

(** C4. With d the injury of the new state minus the injury of the old one,
    [reward_self_destruct] returns d itself when d <= 1 and log10(d)/4 when
    d > 1. *)
Theorem reward_self_destruct_cases (old_state new_state : State) :
  (injury_delta old_state new_state <= 1 ->
     reward_self_destruct old_state new_state
     = injury_delta old_state new_state) /\
  (injury_delta old_state new_state > 1 ->
     reward_self_destruct old_state new_state
     = log10 (injury_delta old_state new_state) / 4).
Proof.
  unfold reward_self_destruct, injury_delta.
  split; intros Hd; destruct (Rlt_dec 1 _) as [Hgt | Hle]; try reflexivity; lra.
Qed.

(** C10. [reward_stay_safe] is the negation of [reward_self_destruct] on
    every pair of states. *)
Theorem reward_stay_safe_is_negated_self_destruct (old_state new_state : State) :
  reward_stay_safe old_state new_state
  = - reward_self_destruct old_state new_state.
Proof.
  unfold reward_stay_safe, reward_self_destruct.
  replace (- (plr0_injury old_state - plr0_injury new_state))
    with (plr0_injury new_state - plr0_injury old_state) by ring.
  reflexivity.
Qed.

(** What [reward_stay_safe] returns, by the size of the injury delta. *)
Lemma reward_stay_safe_cases (old_state new_state : State) :
  (injury_delta old_state new_state <= 1 ->
     reward_stay_safe old_state new_state
     = - injury_delta old_state new_state) /\
  (injury_delta old_state new_state > 1 ->
     reward_stay_safe old_state new_state
     = - (log10 (injury_delta old_state new_state) / 4)).
Proof.
  unfold reward_stay_safe, injury_delta.
  replace (- (plr0_injury old_state - plr0_injury new_state))
    with (plr0_injury new_state - plr0_injury old_state) by ring.
  split; intros Hd; destruct (Rlt_dec 1 _) as [Hgt | Hle]; try reflexivity; lra.
Qed.

(** C5. When the injury did not decrease, [reward_stay_safe] is at most 0;
    when it is unchanged, the reward is exactly 0. *)
Theorem reward_stay_safe_nonpositive (old_state new_state : State) :
  (plr0_injury old_state <= plr0_injury new_state ->
     reward_stay_safe old_state new_state <= 0) /\
  (plr0_injury old_state = plr0_injury new_state ->
     reward_stay_safe old_state new_state = 0).
Proof.
  destruct (reward_stay_safe_cases old_state new_state) as [Hsmall Hbig].
  unfold injury_delta in *.
  split; intros Hinj.
  - destruct (Rle_dec (plr0_injury new_state - plr0_injury old_state) 1) as [Hd | Hd].
    + rewrite Hsmall by exact Hd. lra.
    + assert (Hgt : plr0_injury new_state - plr0_injury old_state > 1) by lra.
      rewrite Hbig by exact Hgt.
      pose proof (log10_pos _ Hgt). lra.
  - rewrite Hsmall by lra. lra.
Qed.

Lemma np_sum_square3 (x y z : R) :
  np_sum (np_square [x; y; z]) = x * x + y * y + z * z.
Proof. unfold np_sum, np_square. simpl. ring. Qed.

(** C6. On states whose player 1 has a head (limb 0) at (xo, yo, zo) and at
    (xn, yn, zn), [reward_run_away] returns the Euclidean norm of the new
    head position minus that of the old one; from (3,4,0) to (6,8,0) this
    is 5. *)
Theorem reward_run_away_norm_difference :
  (forall old_state new_state xo yo zo xn yn zn limbs_o players_o limbs_n players_n,
     limb_positions old_state = ([xo; yo; zo] :: limbs_o) :: players_o ->
     limb_positions new_state = ([xn; yn; zn] :: limbs_n) :: players_n ->
     reward_run_away old_state new_state
     = Ok (euclidean_norm xn yn zn - euclidean_norm xo yo zo)) /\
  (forall io limbs_o players_o inw limbs_n players_n,
     reward_run_away
       {| plr0_injury := io;
          limb_positions := ([3; 4; 0] :: limbs_o) :: players_o |}
       {| plr0_injury := inw;
          limb_positions := ([6; 8; 0] :: limbs_n) :: players_n |}
     = Ok 5).
Proof.
  assert (Hgen : forall old_state new_state xo yo zo xn yn zn
                        limbs_o players_o limbs_n players_n,
     limb_positions old_state = ([xo; yo; zo] :: limbs_o) :: players_o ->
     limb_positions new_state = ([xn; yn; zn] :: limbs_n) :: players_n ->
     reward_run_away old_state new_state
     = Ok (euclidean_norm xn yn zn - euclidean_norm xo yo zo)).
  { intros old_state new_state xo yo zo xn yn zn lo po ln pn Ho Hn.
    unfold reward_run_away, index00. rewrite Ho, Hn. cbn [index0 rbind].
    rewrite !np_sum_square3. reflexivity. }
  split; [exact Hgen |].
  intros io lo po inw ln pn.
  erewrite Hgen by reflexivity.
  f_equal. unfold euclidean_norm.
  replace (6 * 6 + 8 * 8 + 0 * 0) with (10 * 10) by ring.
  replace (3 * 3 + 4 * 4 + 0 * 0) with (5 * 5) by ring.
  rewrite !sqrt_square by lra. ring.
Qed.

End Rewards.

(** ** Observations *)

Section Observation.
Context {tc : ToribashConstants}.

Lemma length_concat_uniform {A : Type} (n : nat) (ls : list (list A)) :
  Forall (fun l => length l = n) ls -> length (concat ls) = length ls * n.
Proof.
  induction 1 as [| l ls Hl _ IH]; simpl; [reflexivity |].
  rewrite length_app, IH, Hl. lia.
Qed.

(** C8. When the limb positions hold a first player with NUM_LIMBS limbs of
    3 coordinates each, both adapters return that player's limbs laid out
    one after the other, NUM_LIMBS*3 numbers, whatever other players
    follow. *)
Theorem preprocess_observation_player1
    (state : State) (plr0 : list (list R)) (others : list (list (list R))) :
  limb_positions state = plr0 :: others ->
  length plr0 = NUM_LIMBS ->
  Forall (fun limb => length limb = 3) plr0 ->
  SoloToriEnv._preprocess_observation state = Ok (concat plr0) /\
  SoloContToriEnv._preprocess_observation state = Ok (concat plr0) /\
  length (concat plr0) = NUM_LIMBS * 3.
Proof.
  intros Hpos Hlimbs Hcoords.
  unfold SoloToriEnv._preprocess_observation,
    SoloContToriEnv._preprocess_observation.
  rewrite Hpos. cbn [index0 rbind].
  repeat split.
  rewrite (length_concat_uniform 3) by exact Hcoords.
  now rewrite Hlimbs.
Qed.

(** Without any player the slice [limb_positions[0]] raises. *)
Lemma preprocess_observation_no_player (state : State) :
  limb_positions state = [] ->
  SoloToriEnv._preprocess_observation state = Raise IndexError.
Proof.
  intros Hpos. unfold SoloToriEnv._preprocess_observation.
  now rewrite Hpos.
Qed.

End Observation.

(** ** Construction and the reward hook *)

Section Construction.
Context {tc : ToribashConstants}.
Context {ToriEnv : Type} (ToriEnv_init : gmap string pyval -> result ToriEnv).

(** Without the key, no construction returns an object, whatever the base
    constructor does. *)
Lemma init_without_reward_func_never_ok (platform : string)
    (kwargs : gmap string pyval) :
  kwargs !! "reward_func" = None ->
  (forall env, SoloToriEnv.__init__ ToriEnv_init platform kwargs <> Ok env) /\
  (forall env, SoloContToriEnv.__init__ ToriEnv_init kwargs <> Ok env).
Proof.
  intros Hkey.
  unfold SoloToriEnv.__init__, SoloContToriEnv.__init__, getitem.
  rewrite Hkey.
  split; intros env; destruct (ToriEnv_init kwargs); discriminate.
Qed.

(** C7. Once the base constructor has returned: without the key
    "reward_func" both constructors raise [KeyError "reward_func"]; with the
    key they return an object whose reward function is the configured value,
    and the reward hook of that object is a call of that value. *)
Theorem init_reward_func (platform : string) (kwargs : gmap string pyval)
    (super : ToriEnv) :
  ToriEnv_init kwargs = Ok super ->
  (kwargs !! "reward_func" = None ->
     SoloToriEnv.__init__ ToriEnv_init platform kwargs
       = Raise (KeyError "reward_func") /\
     SoloContToriEnv.__init__ ToriEnv_init kwargs
       = Raise (KeyError "reward_func")) /\
  (forall f, kwargs !! "reward_func" = Some f ->
     (exists env,
        SoloToriEnv.__init__ ToriEnv_init platform kwargs = Ok env /\
        SoloToriEnv.reward_func env = f /\
        forall old_state new_state,
          SoloToriEnv._reward_function env old_state new_state
          = call2 f old_state new_state) /\
     (exists env,
        SoloContToriEnv.__init__ ToriEnv_init kwargs = Ok env /\
        SoloContToriEnv.reward_func env = f /\
        forall old_state new_state,
          SoloContToriEnv._reward_function env old_state new_state
          = call2 f old_state new_state)).
Proof.
  intros Hbase.
  unfold SoloToriEnv.__init__, SoloContToriEnv.__init__, getitem.
  rewrite Hbase. cbn [rbind].
  split.
  - intros Hkey. rewrite Hkey. split; reflexivity.
  - intros f Hkey. rewrite Hkey. cbn [rbind].
    split; eexists; (split; [reflexivity |]); split; reflexivity.
Qed.

(** The action space of the discrete adapter, read off a constructed
    object. *)
Lemma init_action_space (platform : string) (kwargs : gmap string pyval)
    (env : SoloToriEnv.t) :
  SoloToriEnv.__init__ ToriEnv_init platform kwargs = Ok env ->
  SoloToriEnv.action_space env
  = if String.eqb platform "win32"
    then MultiDiscrete (replicate NUM_JOINTS (DRange 0 (NUM_JOINT_STATES - 1))
                        ++ [DRange 0 1; DRange 0 1])
    else MultiDiscrete (replicate NUM_JOINTS (DSize NUM_JOINT_STATES)
                        ++ [DSize 1; DSize 1]).
Proof.
  unfold SoloToriEnv.__init__.
  destruct (ToriEnv_init kwargs) as [super |]; [| discriminate].
  destruct (getitem kwargs "reward_func") as [f |]; [| discriminate].
  cbn [rbind]. intros [= <-]. cbn [SoloToriEnv.action_space].
  destruct (String.eqb platform "win32"); reflexivity.
Qed.

End Construction.

(** ** The discrete action space *)

Section ActionSpace.
Context {tc : ToribashConstants}.
Context {ToriEnv : Type}.

(** A configuration that carries the reward function [f] and nothing else. *)
Lemma init_ok_singleton (super : ToriEnv) (platform : string) (f : pyval) :
  exists env,
    SoloToriEnv.__init__ (fun _ => Ok super) platform {[ "reward_func" := f ]}
    = Ok env.
Proof.
  unfold SoloToriEnv.__init__, getitem.
  rewrite lookup_singleton_eq. cbn [rbind]. eexists. reflexivity.
Qed.

Lemma dim_admits_range (lo hi v : Z) :
  dim_admits (DRange lo hi) v = true <-> (lo <= v <= hi)%Z.
Proof. unfold dim_admits. rewrite andb_true_iff. lia. Qed.

Lemma dim_admits_size (n v : Z) :
  dim_admits (DSize n) v = true <-> (0 <= v < n)%Z.
Proof. unfold dim_admits. rewrite andb_true_iff. lia. Qed.

(** On "win32" the space is as described: NUM_JOINTS dimensions with the
    values 0 .. NUM_JOINT_STATES-1 and two dimensions with the values 0
    and 1. *)
Lemma action_space_win32 (kwargs : gmap string pyval)
    (init : gmap string pyval -> result ToriEnv) (env : SoloToriEnv.t) :
  SoloToriEnv.__init__ init "win32" kwargs = Ok env ->
  exists joints grips,
    SoloToriEnv.action_space env = MultiDiscrete (joints ++ grips) /\
    length joints = NUM_JOINTS /\ length grips = 2 /\
    Forall (fun d => forall v,
              dim_admits d v = true <-> (0 <= v < NUM_JOINT_STATES)%Z) joints /\
    Forall (fun d => forall v,
              dim_admits d v = true <-> v = 0%Z \/ v = 1%Z) grips.
Proof.
  intros Hinit. apply init_action_space in Hinit. cbn in Hinit.
  eexists _, _. split; [exact Hinit |].
  split; [apply length_replicate |]. split; [reflexivity |].
  split.
  - apply Forall_forall. intros d Hd v.
    apply elem_of_replicate in Hd as [-> _].
    rewrite dim_admits_range. lia.
  - do 2 (constructor; [intros v; rewrite dim_admits_range; lia |]).
    constructor.
Qed.

(** C2 (the code departs from the claim). On "linux", a platform other than
    "win32", the constructed action space has NUM_JOINTS dimensions of size
    NUM_JOINT_STATES followed by two grip dimensions of size 1: a grip
    dimension admits the value 0 only, and the value 1 is refused. *)
Theorem action_space_linux_grips_not_binary (super : ToriEnv) (f : pyval) :
  exists env,
    SoloToriEnv.__init__ (fun _ => Ok super) "linux" {[ "reward_func" := f ]}
    = Ok env /\
    SoloToriEnv.action_space env
    = MultiDiscrete (replicate NUM_JOINTS (DSize NUM_JOINT_STATES)
                     ++ [DSize 1; DSize 1]) /\
    dim_admits (DSize 1) 1 = false /\
    (forall v, dim_admits (DSize 1) v = true <-> v = 0%Z).
Proof.
  destruct (init_ok_singleton super "linux" f) as [env Henv].
  exists env. split; [exact Henv |].
  split; [exact (init_action_space _ _ _ _ Henv) |].
  split; [reflexivity |].
  intros v. rewrite dim_admits_size. lia.
Qed.

End ActionSpace.

(** ** Actions of the discrete adapter *)

Section DiscreteAction.
Context {tc : ToribashConstants}.
Implicit Types (h : gmap loc pyseq) (items : list Z) (action : loc).

Lemma incremented_none (k : nat) items : incremented k 0 items = items.
Proof.
  unfold incremented. rewrite take_0, Nat.add_0_r. simpl. apply take_drop.
Qed.

Lemma incremented_step (k m : nat) items (x : Z) :
  items !! k = Some x ->
  incremented (S k) m (<[k := (x + 1)%Z]> items) = incremented k (S m) items.
Proof.
  intros Hk. unfold incremented.
  assert (Hlen : k < length items) by (eapply lookup_lt_Some; exact Hk).
  rewrite (take_S_r _ k (x + 1)%Z) by (now apply list_lookup_insert_eq).
  rewrite take_insert_ge by lia.
  rewrite !drop_insert_lt by lia.
  rewrite (drop_S items x k Hk). cbn [take map].
  rewrite <- app_assoc. cbn [app].
  now replace (k + S m) with (S k + m) by lia.
Qed.

(** The loop [for i in range(k, k+m): action[i] += 1] on a list long enough
    leaves the list with those entries one higher, and nothing else
    changed. *)
Lemma for_each_iadd_item (m k : nat) h action items :
  h !! action = Some (PyList items) ->
  k + m <= length items ->
  for_each (seq k m) (fun i => SoloToriEnv.iadd_item action i 1) h
  = (<[action := PyList (incremented k m items)]> h, Ok tt).
Proof.
  revert k h items.
  induction m as [| m IH]; intros k h items Hh Hlen.
  - cbn [seq for_each]. unfold ret.
    rewrite incremented_none. now rewrite insert_id.
  - cbn [seq for_each]. unfold bind at 1.
    destruct (lookup_lt_is_Some_2 items k) as [x Hx]; [lia |].
    unfold SoloToriEnv.iadd_item at 1. rewrite Hh, Hx.
    rewrite (IH (S k) _ (<[k := (x + 1)%Z]> items)).
    + rewrite insert_insert_eq. now rewrite (incremented_step k m items x Hx).
    + apply lookup_insert_eq.
    + rewrite length_insert. lia.
Qed.

Lemma incremented_prefix (n : nat) items :
  n <= length items ->
  incremented 0 n items = map (fun x => (x + 1)%Z) (take n items) ++ drop n items.
Proof. intros _. unfold incremented. now rewrite take_0, drop_0. Qed.

(** A list argument: the method works on the caller's own list and returns
    it as player 1's sequence. *)
Lemma preprocess_action_on_list h action items :
  h !! action = Some (PyList items) ->
  NUM_JOINTS <= length items ->
  SoloToriEnv._preprocess_action action h
  = (<[action := PyList (map (fun x => (x + 1)%Z) (take NUM_JOINTS items)
                         ++ drop NUM_JOINTS items)]> h,
     Ok (action, replicate NUM_CONTROLLABLES 1%Z)).
Proof.
  intros Hh Hlen. unfold SoloToriEnv._preprocess_action.
  unfold bind at 1. unfold SoloToriEnv.type_is_not_list. rewrite Hh.
  unfold bind at 1. unfold ret at 1.
  unfold bind at 1. unfold for_range.
  rewrite (for_each_iadd_item NUM_JOINTS 0 h action items Hh) by lia.
  unfold ret. now rewrite incremented_prefix.
Qed.

(** Any other sequence: the method works on a new list, and the store the
    caller knew is extended, not changed. *)
Lemma preprocess_action_on_other_seq h action items :
  h !! action = Some (PyOtherSeq items) ->
  NUM_JOINTS <= length items ->
  let l := fresh (dom h) in
  h !! l = None /\
  SoloToriEnv._preprocess_action action h
  = (<[l := PyList (map (fun x => (x + 1)%Z) (take NUM_JOINTS items)
                    ++ drop NUM_JOINTS items)]> h,
     Ok (l, replicate NUM_CONTROLLABLES 1%Z)).
Proof.
  intros Hh Hlen l.
  assert (Hfresh : h !! l = None) by (apply not_elem_of_dom, is_fresh).
  split; [exact Hfresh |].
  unfold SoloToriEnv._preprocess_action.
  unfold bind at 1. unfold SoloToriEnv.type_is_not_list. rewrite Hh.
  unfold bind at 1. unfold SoloToriEnv.list_of. rewrite Hh.
  cbn [seq_items]. fold l.
  unfold bind at 1. unfold for_range.
  rewrite (for_each_iadd_item NUM_JOINTS 0 _ l items) by
    (try apply lookup_insert_eq; lia).
  unfold ret. rewrite insert_insert_eq. now rewrite incremented_prefix.
Qed.

Lemma incremented_zeros (n : nat) :
  map (fun x => (x + 1)%Z) (take n (replicate (n + 2) 0%Z))
  ++ drop n (replicate (n + 2) 0%Z)
  = replicate n 1%Z ++ [0%Z; 0%Z].
Proof.
  rewrite take_replicate_add, drop_replicate_add.
  f_equal. induction n as [| n IH]; simpl; [reflexivity | now rewrite IH].
Qed.

(** C1. On an action sequence of length NUM_JOINTS+2 (a list or any other
    sequence), [_preprocess_action] returns a pair: player 1's sequence
    holds the first NUM_JOINTS entries each one higher and the two grip
    entries as they were, and player 2's sequence is NUM_CONTROLLABLES
    ones.  On the all-zeros sequence the joints are all 1 and the grips
    0. *)
Theorem preprocess_action_increments_joints h action items :
  seq_items <$> h !! action = Some items ->
  length items = NUM_JOINTS + 2 ->
  exists h' plr0,
    SoloToriEnv._preprocess_action action h
    = (h', Ok (plr0, replicate NUM_CONTROLLABLES 1%Z)) /\
    h' !! plr0
    = Some (PyList (map (fun x => (x + 1)%Z) (take NUM_JOINTS items)
                    ++ drop NUM_JOINTS items)) /\
    (items = replicate (NUM_JOINTS + 2) 0%Z ->
     h' !! plr0 = Some (PyList (replicate NUM_JOINTS 1%Z ++ [0%Z; 0%Z]))).
Proof.
  intros Hh Hlen.
  assert (Hshape : exists h' plr0,
    SoloToriEnv._preprocess_action action h
    = (h', Ok (plr0, replicate NUM_CONTROLLABLES 1%Z)) /\
    h' !! plr0
    = Some (PyList (map (fun x => (x + 1)%Z) (take NUM_JOINTS items)
                    ++ drop NUM_JOINTS items))).
  { destruct (h !! action) as [[its | its] |] eqn:Hobj;
      cbn in Hh; [| | discriminate]; injection Hh as ->.
    - eexists _, _. split.
      + apply preprocess_action_on_list; [exact Hobj | lia].
      + apply lookup_insert_eq.
    - destruct (preprocess_action_on_other_seq h action items Hobj) as [_ Hrun];
        [lia |].
      eexists _, _. split; [exact Hrun | apply lookup_insert_eq]. }
  destruct Hshape as (h' & plr0 & Hrun & Hplr0).
  exists h', plr0. split; [exact Hrun |]. split; [exact Hplr0 |].
  intros ->. rewrite Hplr0. now rewrite incremented_zeros.
Qed.

(** A list shorter than NUM_JOINTS makes the loop raise [IndexError]. *)
Lemma iadd_item_out_of_range h action items (i : nat) :
  h !! action = Some (PyList items) ->
  length items <= i ->
  SoloToriEnv.iadd_item action i 1 h = (h, Raise IndexError).
Proof.
  intros Hh Hlen. unfold SoloToriEnv.iadd_item.
  rewrite Hh. now rewrite lookup_ge_None_2.
Qed.

End DiscreteAction.

(** ** Actions of the continuous adapter *)

Section ContinuousAction.
Context {tc : ToribashConstants}.
Implicit Types (h : gmap loc (list R)) (a : list R) (action : loc).

Lemma np_clip_bounds (x hi : R) : (0 <= hi)%R -> (0 <= np_clip x 0 hi <= hi)%R.
Proof.
  intros Hhi. unfold np_clip.
  pose proof (Rmax_r x 0). pose proof (Rmin_r (Rmax x 0) hi).
  split; [apply Rmin_glb; assumption | assumption].
Qed.

Lemma Zfloor_clip_range (x hi : R) (n : Z) :
  (0 <= hi)%R -> (hi < IZR n + 1)%R ->
  (0 <= Zfloor (np_clip x 0 hi) <= n)%Z.
Proof.
  intros Hhi Hn.
  destruct (np_clip_bounds x hi Hhi) as [Hlo Hup].
  pose proof (Zfloor_bound (np_clip x 0 hi)) as [Hfl _].
  split.
  - apply Zfloor_lub. exact Hlo.
  - apply Z.lt_succ_r, lt_IZR. rewrite succ_IZR. lra.
Qed.

Lemma joint_code_range (v : R) : (0 <= joint_code v <= 4)%Z.
Proof. apply Zfloor_clip_range; lra. Qed.

Lemma grip_code_range (v : R) : (0 <= grip_code v <= 1)%Z.
Proof. apply Zfloor_clip_range; lra. Qed.

Lemma joint_code_0 : joint_code 0 = 1%Z.
Proof.
  unfold joint_code, np_clip. apply Zfloor_eq.
  rewrite Rmax_left, Rmin_left by lra. lra.
Qed.

Lemma grip_code_0 : grip_code 0 = 0%Z.
Proof.
  unfold grip_code, np_clip. apply Zfloor_eq.
  rewrite Rmax_left, Rmin_left by lra. lra.
Qed.

Lemma astype_int_whole (z : Z) : astype_int (IZR z) = z.
Proof.
  unfold astype_int. destruct (Rle_dec 0 (IZR z)).
  - apply ZfloorZ.
  - rewrite ZfloorNZ. lia.
Qed.

(** The joints after [action += 1], clipping and flooring. *)
Lemma floored_joints (js : list R) :
  map np_floor (map (fun x => np_clip x 0 (49 / 10))
                    (map (fun x => (x + 1)%R) js))
  = map (fun v => IZR (joint_code v)) js.
Proof. rewrite !map_map. reflexivity. Qed.

Lemma floored_grip (g : R) :
  np_floor (np_clip (g + 1 - 1) 0 (19 / 10)) = IZR (grip_code g).
Proof.
  unfold np_floor, grip_code. now replace (g + 1 - 1)%R with g by ring.
Qed.

(** The store operations of the method, on an array that ends in two
    elements [x; y]. *)
Lemma bind_ok {Obj A B : Type} (m : M Obj A) (k : A -> M Obj B)
    (s s' : gmap loc Obj) (v : A) :
  m s = (s', Ok v) -> bind m k s = k v s'.
Proof. intros Hm. unfold bind. now rewrite Hm. Qed.

Lemma iadd_all_run h action a (d : R) :
  h !! action = Some a ->
  SoloContToriEnv.iadd_all action d h
  = (<[action := map (fun x => (x + d)%R) a]> h, Ok tt).
Proof. intros Hh. unfold SoloContToriEnv.iadd_all. now rewrite Hh. Qed.

Lemma length_init2 (pre : list R) (x y : R) :
  length (pre ++ [x; y]) - 2 = length pre.
Proof. rewrite length_app. cbn [length]. lia. Qed.

Lemma get_init_2 h action (pre : list R) (x y : R) :
  h !! action = Some (pre ++ [x; y]) ->
  SoloContToriEnv.get_init action 2 h = (h, Ok pre).
Proof.
  intros Hh. unfold SoloContToriEnv.get_init. rewrite Hh.
  now rewrite length_init2, take_app_length.
Qed.

Lemma set_init_2 h action (pre vs : list R) (x y : R) :
  h !! action = Some (pre ++ [x; y]) ->
  length vs = length pre ->
  SoloContToriEnv.set_init action 2 vs h
  = (<[action := vs ++ [x; y]]> h, Ok tt).
Proof.
  intros Hh Hvs. unfold SoloContToriEnv.set_init. rewrite Hh.
  rewrite length_init2, drop_app_length.
  now rewrite decide_True by exact Hvs.
Qed.

Lemma get_neg_2 h action (pre : list R) (x y : R) :
  h !! action = Some (pre ++ [x; y]) ->
  SoloContToriEnv.get_neg action 2 h = (h, Ok x).
Proof.
  intros Hh. unfold SoloContToriEnv.get_neg. rewrite Hh.
  rewrite decide_True by (rewrite length_app; cbn [length]; lia).
  rewrite length_init2.
  now rewrite (list_lookup_middle pre [y] x (length pre) eq_refl).
Qed.

Lemma set_neg_2 h action (pre : list R) (x y v : R) :
  h !! action = Some (pre ++ [x; y]) ->
  SoloContToriEnv.set_neg action 2 v h
  = (<[action := pre ++ [v; y]]> h, Ok tt).
Proof.
  intros Hh. unfold SoloContToriEnv.set_neg. rewrite Hh.
  rewrite decide_True by (rewrite length_app; cbn [length]; lia).
  rewrite length_init2.
  rewrite <- (Nat.add_0_r (length pre)) at 1.
  now rewrite insert_app_r.
Qed.

Lemma length_init1 (pre : list R) (x y : R) :
  length (pre ++ [x; y]) - 1 = length pre + 1.
Proof. rewrite length_app. cbn [length]. lia. Qed.

Lemma get_neg_1 h action (pre : list R) (x y : R) :
  h !! action = Some (pre ++ [x; y]) ->
  SoloContToriEnv.get_neg action 1 h = (h, Ok y).
Proof.
  intros Hh. unfold SoloContToriEnv.get_neg. rewrite Hh.
  rewrite decide_True by (rewrite length_app; cbn [length]; lia).
  rewrite length_init1.
  rewrite lookup_app_r by lia.
  now replace (length pre + 1 - length pre) with 1 by lia.
Qed.

Lemma set_neg_1 h action (pre : list R) (x y v : R) :
  h !! action = Some (pre ++ [x; y]) ->
  SoloContToriEnv.set_neg action 1 v h
  = (<[action := pre ++ [x; v]]> h, Ok tt).
Proof.
  intros Hh. unfold SoloContToriEnv.set_neg. rewrite Hh.
  rewrite decide_True by (rewrite length_app; cbn [length]; lia).
  rewrite length_init1.
  now rewrite insert_app_r.
Qed.

Lemma astype_int_list_run h action a :
  h !! action = Some a ->
  SoloContToriEnv.astype_int_list action h = (h, Ok (map astype_int a)).
Proof. intros Hh. unfold SoloContToriEnv.astype_int_list. now rewrite Hh. Qed.

(** The run of the method on an array of joints followed by two grips: the
    array the caller passed is rewritten in place, element by element, with
    the codes (as floats), and the same codes are returned as ints. *)
Lemma preprocess_action_run h action (js : list R) (g1 g2 : R) :
  h !! action = Some (js ++ [g1; g2]) ->
  SoloContToriEnv._preprocess_action action h
  = (<[action := map (fun v => IZR (joint_code v)) js
                 ++ [IZR (grip_code g1); IZR (grip_code g2)]]> h,
     Ok (map joint_code js ++ [grip_code g1; grip_code g2],
         replicate NUM_CONTROLLABLES 1%Z)).
Proof.
  intros Hh. unfold SoloContToriEnv._preprocess_action.
  set (js1 := map (fun x => (x + 1)%R) js).
  set (cs := map (fun v => IZR (joint_code v)) js).
  assert (Hfl : map np_floor (map (fun x => np_clip x 0 (49 / 10)) js1) = cs)
    by apply floored_joints.
  assert (Hlen : length cs = length js1)
    by (unfold cs, js1; now rewrite !length_map).
  (* action += 1 *)
  rewrite (bind_ok _ _ _ _ _ (iadd_all_run h action _ 1 Hh)).
  rewrite map_app. cbn [map]. fold js1.
  (* action[:-2] and its assignment *)
  erewrite bind_ok by (eapply get_init_2, lookup_insert_eq).
  rewrite Hfl.
  erewrite bind_ok by
    (eapply set_init_2; [apply lookup_insert_eq | exact Hlen]).
  rewrite insert_insert_eq.
  (* action[-2] and its assignment *)
  erewrite bind_ok by (eapply get_neg_2, lookup_insert_eq).
  erewrite bind_ok by (eapply set_neg_2, lookup_insert_eq).
  rewrite insert_insert_eq, floored_grip.
  (* action[-1] and its assignment *)
  erewrite bind_ok by (eapply get_neg_1, lookup_insert_eq).
  erewrite bind_ok by (eapply set_neg_1, lookup_insert_eq).
  rewrite insert_insert_eq, floored_grip.
  (* astype, list, and the pair *)
  erewrite bind_ok by (eapply astype_int_list_run, lookup_insert_eq).
  unfold ret.
  rewrite map_app. cbn [map]. unfold cs. rewrite map_map.
  rewrite !astype_int_whole.
  do 4 f_equal.
  apply map_ext. intros v. apply astype_int_whole.
Qed.

(** An array of length n+2 is n joints followed by two grips. *)
Lemma split_joints_grips (n : nat) a :
  length a = n + 2 ->
  exists g1 g2, a = take n a ++ [g1; g2] /\ drop n a = [g1; g2].
Proof.
  intros Hlen.
  assert (Hd : length (drop n a) = 2) by (rewrite length_drop; lia).
  destruct (drop n a) as [| g1 [| g2 [| ? ?]]] eqn:Hdrop; try discriminate.
  exists g1, g2. split; [| reflexivity].
  now rewrite <- Hdrop, take_drop.
Qed.

Lemma codes_of_zeros (n : nat) :
  map joint_code (replicate n 0%R) = replicate n 1%Z.
Proof.
  induction n as [| n IH]; simpl; [reflexivity |].
  now rewrite joint_code_0, IH.
Qed.

(** An array with fewer than two elements makes [action[-2]] raise. *)
Lemma get_neg_out_of_range h action a (k : nat) :
  h !! action = Some a ->
  length a < k ->
  SoloContToriEnv.get_neg action k h = (h, Raise IndexError).
Proof.
  intros Hh Hlen. unfold SoloContToriEnv.get_neg. rewrite Hh.
  destruct (decide (k <= length a)); [lia | reflexivity].
Qed.

End ContinuousAction.

(** ** What the hooks change in the store *)

Section Frame.
Context {tc : ToribashConstants}.

(** C9 (as the code has it). The observation hooks only read the limb
    positions, so two calls on the same state return the same output.  The
    action hook of the discrete adapter leaves a sequence that is not a list
    as it was and allocates a new list; given a list, it increments the
    first NUM_JOINTS entries of that very list and returns it as player 1's
    sequence.  The action hook of the continuous adapter overwrites the
    array it was given with the codes it returns.  No hook changes any
    other object. *)
Theorem preprocess_hooks_store_effect :
  (forall s1 s2 : State,
     limb_positions s1 = limb_positions s2 ->
     SoloToriEnv._preprocess_observation s1
     = SoloToriEnv._preprocess_observation s2 /\
     SoloContToriEnv._preprocess_observation s1
     = SoloContToriEnv._preprocess_observation s2) /\
  (forall (h : gmap loc pyseq) action items,
     h !! action = Some (PyOtherSeq items) ->
     NUM_JOINTS <= length items ->
     exists h' res,
       SoloToriEnv._preprocess_action action h = (h', Ok res) /\
       forall l, is_Some (h !! l) -> h' !! l = h !! l) /\
  (forall (h : gmap loc pyseq) action items,
     h !! action = Some (PyList items) ->
     NUM_JOINTS <= length items ->
     exists h',
       SoloToriEnv._preprocess_action action h
       = (h', Ok (action, replicate NUM_CONTROLLABLES 1%Z)) /\
       h' !! action
       = Some (PyList (map (fun x => (x + 1)%Z) (take NUM_JOINTS items)
                       ++ drop NUM_JOINTS items)) /\
       forall l, l <> action -> h' !! l = h !! l) /\
  (forall (h : gmap loc (list R)) action a,
     h !! action = Some a ->
     2 <= length a ->
     exists h' plr0 plr1,
       SoloContToriEnv._preprocess_action action h = (h', Ok (plr0, plr1)) /\
       h' !! action = Some (map IZR plr0) /\
       forall l, l <> action -> h' !! l = h !! l).
Proof.
  split; [| split; [| split]].
  - intros s1 s2 Hpos.
    unfold SoloToriEnv._preprocess_observation,
      SoloContToriEnv._preprocess_observation.
    now rewrite Hpos.
  - intros h action items Hh Hlen.
    destruct (preprocess_action_on_other_seq h action items Hh Hlen)
      as [Hfresh Hrun].
    eexists _, _. split; [exact Hrun |].
    intros l [o Hl]. apply lookup_insert_ne. congruence.
  - intros h action items Hh Hlen.
    eexists. split; [exact (preprocess_action_on_list h action items Hh Hlen) |].
    split; [apply lookup_insert_eq |].
    intros l Hl. now apply lookup_insert_ne.
  - intros h action a Hh Hlen.
    destruct (split_joints_grips (length a - 2) a) as (g1 & g2 & Ha & _);
      [lia |].
    rewrite Ha in Hh.
    eexists _, _, _.
    split; [exact (preprocess_action_run h action _ g1 g2 Hh) |].
    split.
    + rewrite lookup_insert_eq, map_app, map_map. reflexivity.
    + intros l Hl. now apply lookup_insert_ne.
Qed.

End Frame.

(** ** The properties on the sample data *)

(** The caller's all-zeros list no longer holds its zeros after the call:
    its 20 joint entries are 1. *)
Lemma preprocess_action_rewrites_callers_list :
  exists h',
    fst (SoloToriEnv._preprocess_action (tc := toribash) 1%positive
           zeros_list_store) = h' /\
    zeros_list_store !! 1%positive = Some (PyList (replicate 22 0%Z)) /\
    h' !! 1%positive = Some (PyList (replicate 20 1%Z ++ [0%Z; 0%Z])) /\
    h' !! 1%positive <> zeros_list_store !! 1%positive.
Proof.
  eexists. split; [reflexivity |].
  split; [reflexivity |].
  rewrite (preprocess_action_on_list (tc := toribash) zeros_list_store
             1%positive (replicate 22 0%Z)) by (vm_compute; (reflexivity || lia)).
  cbn [fst]. rewrite lookup_insert_eq.
  split; [reflexivity | discriminate].
Qed.

(** C4 on a delta of 1/2 and on a delta of 10. *)
Lemma reward_self_destruct_cases_witness :
  reward_self_destruct (state_of 0 0 0 0) (state_of (1 / 2) 0 0 0)
  = injury_delta (state_of 0 0 0 0) (state_of (1 / 2) 0 0 0) /\
  reward_self_destruct (state_of 0 0 0 0) (state_of 10 0 0 0)
  = (log10 (injury_delta (state_of 0 0 0 0) (state_of 10 0 0 0)) / 4)%R.
Proof.
  split.
  - apply (proj1 (reward_self_destruct_cases
                    (state_of 0 0 0 0) (state_of (1 / 2) 0 0 0))).
    unfold injury_delta. simpl. lra.
  - apply (proj2 (reward_self_destruct_cases
                    (state_of 0 0 0 0) (state_of 10 0 0 0))).
    unfold injury_delta. simpl. lra.
Defined.

(** A delta of 10 is rewarded with 1/4. *)
Example reward_self_destruct_10 :
  reward_self_destruct (state_of 0 0 0 0) (state_of 10 0 0 0) = (1 / 4)%R.
Proof.
  unfold reward_self_destruct. simpl.
  replace (10 - 0)%R with 10%R by ring.
  destruct (Rlt_dec 1 10) as [_ | Hn]; [| lra].
  rewrite log10_10. reflexivity.
Qed.

(** C5 on an injury rising from 0 to 10 and on an injury staying at 3. *)
Lemma reward_stay_safe_nonpositive_witness :
  (reward_stay_safe (state_of 0 0 0 0) (state_of 10 0 0 0) <= 0)%R /\
  reward_stay_safe (state_of 3 0 0 0) (state_of 3 1 1 1) = 0%R.
Proof.
  split.
  - apply (proj1 (reward_stay_safe_nonpositive
                    (state_of 0 0 0 0) (state_of 10 0 0 0))).
    simpl. lra.
  - apply (proj2 (reward_stay_safe_nonpositive
                    (state_of 3 0 0 0) (state_of 3 1 1 1))).
    reflexivity.
Defined.

(** C6 on a head moving from (1,2,2) to (2,3,6). *)
Lemma reward_run_away_norm_difference_witness :
  reward_run_away (state_of 0 1 2 2) (state_of 0 2 3 6)
  = Ok (euclidean_norm 2 3 6 - euclidean_norm 1 2 2)%R.
Proof.
  apply (proj1 reward_run_away_norm_difference
           (state_of 0 1 2 2) (state_of 0 2 3 6) 1 2 2 2 3 6 [] [] [] [])%R;
    reflexivity.
Defined.

(** C8 on the state of two players at rest. *)
Lemma preprocess_observation_player1_witness :
  SoloToriEnv._preprocess_observation state_at_rest
  = Ok (concat (replicate 21 [0; 0; 0]%R)) /\
  SoloContToriEnv._preprocess_observation state_at_rest
  = Ok (concat (replicate 21 [0; 0; 0]%R)) /\
  length (concat (replicate 21 [0; 0; 0]%R)) = 21 * 3.
Proof.
  apply (preprocess_observation_player1 (tc := toribash) state_at_rest
           (replicate 21 [0; 0; 0]%R) [replicate 21 [1; 1; 1]%R]).
  - reflexivity.
  - reflexivity.
  - apply Forall_replicate. reflexivity.
Defined.

(** C7 with a base constructor that always returns, on the empty
    configuration and on one that carries [reward_self_destruct]. *)
Lemma init_reward_func_witness :
  (SoloToriEnv.__init__ (tc := toribash) (fun _ => Ok tt) "linux" ∅
   = Raise (KeyError "reward_func") /\
   SoloContToriEnv.__init__ (tc := toribash) (fun _ => Ok tt) ∅
   = Raise (KeyError "reward_func")) /\
  (exists env,
     SoloToriEnv.__init__ (tc := toribash) (fun _ => Ok tt) "linux"
       {[ "reward_func" :=
            PyCallable (fun o n => Ok (reward_self_destruct o n)) ]}
     = Ok env /\
     forall old_state new_state,
       SoloToriEnv._reward_function env old_state new_state
       = Ok (reward_self_destruct old_state new_state)).
Proof.
  split.
  - apply (proj1 (init_reward_func (tc := toribash) (fun _ => Ok tt)
                    "linux" ∅ tt eq_refl)).
    reflexivity.
  - destruct (proj2 (init_reward_func (tc := toribash) (fun _ => Ok tt)
                       "linux"
                       {[ "reward_func" :=
                            PyCallable (fun o n => Ok (reward_self_destruct o n)) ]}
                       tt eq_refl)
                _ (lookup_singleton_eq _ _))
      as [(env & Hinit & _ & Hhook) _].
    exists env. split; [exact Hinit | exact Hhook].
Defined.

(** C1 on the all-zeros list of 22 entries. *)
Lemma preprocess_action_increments_joints_witness :
  exists h' plr0,
    SoloToriEnv._preprocess_action (tc := toribash) 1%positive zeros_list_store
    = (h', Ok (plr0, replicate 22 1%Z)) /\
    h' !! plr0 = Some (PyList (replicate 20 1%Z ++ [0%Z; 0%Z])).
Proof.
  destruct (preprocess_action_increments_joints (tc := toribash)
              zeros_list_store 1%positive (replicate 22 0%Z)
              eq_refl eq_refl)
    as (h' & plr0 & Hrun & _ & Hzeros).
  exists h', plr0. split; [exact Hrun | apply Hzeros; reflexivity].
Defined.

(** C9 on the all-zeros list: the returned sequence is the caller's list,
    now holding the incremented joints. *)
Lemma preprocess_hooks_store_effect_witness :
  exists h',
    SoloToriEnv._preprocess_action (tc := toribash) 1%positive zeros_list_store
    = (h', Ok (1%positive, replicate 22 1%Z)) /\
    h' !! 1%positive
    = Some (PyList (map (fun x => (x + 1)%Z) (take 20 (replicate 22 0%Z))
                    ++ drop 20 (replicate 22 0%Z))).
Proof.
  destruct (proj1 (proj2 (proj2 (preprocess_hooks_store_effect (tc := toribash))))
              zeros_list_store 1%positive (replicate 22 0%Z) eq_refl)
    as (h' & Hrun & Hlist & _).
  - vm_compute. lia.
  - exists h'. split; [exact Hrun | exact Hlist].
Defined.

(** * Further properties of the code *)

(** The two injury rewards compress the same delta. *)
Lemma reward_stay_safe_negates (old_state new_state : State) :
  reward_stay_safe old_state new_state
  = (- reward_self_destruct old_state new_state)%R.
Proof.
  unfold reward_stay_safe, reward_self_destruct.
  replace (- (plr0_injury old_state - plr0_injury new_state))%R
    with (plr0_injury new_state - plr0_injury old_state)%R by ring.
  reflexivity.
Qed.

(** The run of the discrete action hook on a list or any other sequence with
    at least NUM_JOINTS entries. *)
Lemma preprocess_action_increments_joints_shape {tc : ToribashConstants}
    (h : gmap loc pyseq) (action : loc) (items : list Z) :
  seq_items <$> h !! action = Some items ->
  NUM_JOINTS <= length items ->
  exists h' plr0,
    SoloToriEnv._preprocess_action action h
    = (h', Ok (plr0, replicate NUM_CONTROLLABLES 1%Z)) /\
    h' !! plr0
    = Some (PyList (map (fun x => (x + 1)%Z) (take NUM_JOINTS items)
                    ++ drop NUM_JOINTS items)).
Proof.
  intros Hh Hlen.
  destruct (h !! action) as [[its | its] |] eqn:Hobj;
    cbn in Hh; [| | discriminate]; injection Hh as ->.
  - eexists _, _. split.
    + apply preprocess_action_on_list; [exact Hobj | lia].
    + apply lookup_insert_eq.
  - destruct (preprocess_action_on_other_seq h action items Hobj) as [_ Hr];
      [lia |].
    eexists _, _. split; [exact Hr | apply lookup_insert_eq].
Qed.

(** ** The discrete action hook beyond the expected length *)

Section DiscreteActionEdges.
Context {tc : ToribashConstants}.
Implicit Types (h : gmap loc pyseq) (items : list Z) (action : loc).

Lemma incremented_all (k : nat) items :
  k <= length items ->
  incremented 0 (length items) items = map (fun x => (x + 1)%Z) items.
Proof.
  intros _. unfold incremented.
  rewrite take_0, drop_0, firstn_all, drop_ge by (cbn; lia).
  cbn [app]. apply app_nil_r.
Qed.

(** The loop over a range that runs past the end of the list: every entry
    from k on is incremented, then the next index raises. *)
Lemma for_each_iadd_item_overrun (m k : nat) h action items :
  h !! action = Some (PyList items) ->
  k <= length items < k + m ->
  for_each (seq k m) (fun i => SoloToriEnv.iadd_item action i 1) h
  = (<[action := PyList (incremented k (length items - k) items)]> h,
     Raise IndexError).
Proof.
  revert k h items.
  induction m as [| m IH]; intros k h items Hh Hlen; [lia |].
  cbn [seq for_each]. unfold bind at 1.
  destruct (decide (k = length items)) as [-> | Hne].
  - rewrite (iadd_item_out_of_range h action items (length items) Hh) by lia.
    rewrite Nat.sub_diag, incremented_none. now rewrite insert_id.
  - destruct (lookup_lt_is_Some_2 items k) as [x Hx]; [lia |].
    unfold SoloToriEnv.iadd_item at 1. rewrite Hh, Hx.
    rewrite (IH (S k) _ (<[k := (x + 1)%Z]> items)).
    + rewrite insert_insert_eq, length_insert.
      rewrite (incremented_step k _ items x Hx).
      now replace (S (length items - S k)) with (length items - k) by lia.
    + apply lookup_insert_eq.
    + rewrite length_insert. lia.
Qed.

(** X1. A sequence shorter than NUM_JOINTS makes the action hook raise
    [IndexError], and the raise comes after the increments: a list argument
    is left with every entry one higher, while any other sequence is left
    as it was. *)
Theorem preprocess_action_short_sequence h action items :
  length items < NUM_JOINTS ->
  (h !! action = Some (PyList items) ->
     SoloToriEnv._preprocess_action action h
     = (<[action := PyList (map (fun x => (x + 1)%Z) items)]> h,
        Raise IndexError)) /\
  (h !! action = Some (PyOtherSeq items) ->
     exists h',
       SoloToriEnv._preprocess_action action h = (h', Raise IndexError) /\
       h' !! action = Some (PyOtherSeq items)).
Proof.
  intros Hlen. split; intros Hh.
  - unfold SoloToriEnv._preprocess_action.
    unfold bind at 1. unfold SoloToriEnv.type_is_not_list. rewrite Hh.
    unfold bind at 1. unfold ret at 1.
    unfold bind at 1. unfold for_range.
    rewrite (for_each_iadd_item_overrun NUM_JOINTS 0 h action items Hh) by lia.
    rewrite Nat.sub_0_r. now rewrite (incremented_all 0) by lia.
  - assert (Hfresh : h !! fresh (dom h) = None)
      by (apply not_elem_of_dom, is_fresh).
    eexists. split.
    + unfold SoloToriEnv._preprocess_action.
      unfold bind at 1. unfold SoloToriEnv.type_is_not_list. rewrite Hh.
      unfold bind at 1. unfold SoloToriEnv.list_of. rewrite Hh.
      cbn [seq_items].
      unfold bind at 1. unfold for_range.
      rewrite (for_each_iadd_item_overrun NUM_JOINTS 0 _ (fresh (dom h)) items)
        by (try apply lookup_insert_eq; lia).
      reflexivity.
    + rewrite insert_insert_eq, lookup_insert_ne by congruence. exact Hh.
Qed.

Lemma lookup_incremented_prefix (n i : nat) items :
  (map (fun x => (x + 1)%Z) (take n items) ++ drop n items) !! i
  = if decide (i < n) then (fun x => (x + 1)%Z) <$> items !! i
    else items !! i.
Proof.
  destruct (decide (i < n)) as [Hi | Hi].
  - destruct (decide (i < length items)) as [Hin | Hout].
    + rewrite lookup_app_l by (rewrite length_map, length_take; lia).
      rewrite list_lookup_fmap. now rewrite lookup_take_lt.
    + rewrite (lookup_ge_None_2 items i) by lia.
      apply lookup_ge_None_2.
      rewrite length_app, length_map, length_take, length_drop. lia.
  - destruct (decide (n <= length items)) as [Hn | Hn].
    + rewrite lookup_app_r by (rewrite length_map, length_take; lia).
      rewrite length_map, length_take, lookup_drop. f_equal. lia.
    + rewrite (lookup_ge_None_2 items i) by lia.
      apply lookup_ge_None_2.
      rewrite length_app, length_map, length_take, length_drop. lia.
Qed.

(** X2. The action hook does not check the length of the sequence against
    the number of controllables: on any list or other sequence with at
    least NUM_JOINTS entries it returns, player 1's sequence has as many
    entries as the input, those at the indices below NUM_JOINTS one higher
    and every later one unchanged, and player 2's sequence has
    NUM_CONTROLLABLES entries. *)
Theorem preprocess_action_any_length h action items :
  seq_items <$> h !! action = Some items ->
  NUM_JOINTS <= length items ->
  exists h' plr0 out,
    SoloToriEnv._preprocess_action action h
    = (h', Ok (plr0, replicate NUM_CONTROLLABLES 1%Z)) /\
    h' !! plr0 = Some (PyList out) /\
    length out = length items /\
    (forall i x, i < NUM_JOINTS -> items !! i = Some x ->
                 out !! i = Some (x + 1)%Z) /\
    (forall i, NUM_JOINTS <= i -> out !! i = items !! i).
Proof.
  intros Hh Hlen.
  destruct (preprocess_action_increments_joints_shape h action items Hh Hlen)
    as (h' & plr0 & Hrun & Hout).
  eexists h', plr0, _. split; [exact Hrun |]. split; [exact Hout |].
  split; [| split].
  - rewrite length_app, length_map, length_take, length_drop. lia.
  - intros i x Hi Hx. rewrite lookup_incremented_prefix.
    rewrite decide_True by exact Hi. now rewrite Hx.
  - intros i Hi. rewrite lookup_incremented_prefix.
    now rewrite decide_False by lia.
Qed.

(** X3. Because a list argument is updated in place, handing the same list
    to the action hook twice leaves its first NUM_JOINTS entries two
    higher. *)
Theorem preprocess_action_twice_on_list h action items :
  h !! action = Some (PyList items) ->
  NUM_JOINTS <= length items ->
  exists h1 h2,
    SoloToriEnv._preprocess_action action h
    = (h1, Ok (action, replicate NUM_CONTROLLABLES 1%Z)) /\
    SoloToriEnv._preprocess_action action h1
    = (h2, Ok (action, replicate NUM_CONTROLLABLES 1%Z)) /\
    h2 !! action
    = Some (PyList (map (fun x => (x + 2)%Z) (take NUM_JOINTS items)
                    ++ drop NUM_JOINTS items)).
Proof.
  intros Hh Hlen.
  set (once := map (fun x => (x + 1)%Z) (take NUM_JOINTS items)
               ++ drop NUM_JOINTS items).
  assert (Hlen1 : length (map (fun x => (x + 1)%Z) (take NUM_JOINTS items))
                  = NUM_JOINTS)
    by (rewrite length_map, length_take; lia).
  eexists _, _.
  split; [exact (preprocess_action_on_list h action items Hh Hlen) |].
  fold once. split.
  - apply (preprocess_action_on_list _ action once).
    + apply lookup_insert_eq.
    + unfold once. rewrite length_app, Hlen1. lia.
  - rewrite lookup_insert_eq. do 2 f_equal. unfold once.
    rewrite take_app_length', drop_app_length' by (now rewrite Hlen1).
    rewrite map_map. f_equal. apply map_ext. intros x. lia.
Qed.

End DiscreteActionEdges.

(** ** Actions taken from the declared action space *)

Section ActionsInSpace.
Context {tc : ToribashConstants}.
Context {ToriEnv : Type} (ToriEnv_init : gmap string pyval -> result ToriEnv).

Lemma Forall2_replicate_l {A B : Type} (P : A -> B -> Prop) (n : nat) (d : A)
    (l : list B) :
  Forall2 P (replicate n d) l -> length l = n /\ Forall (P d) l.
Proof.
  revert l. induction n as [| n IH]; intros l Hl; cbn in Hl.
  - apply Forall2_nil_inv_l in Hl as ->. split; [reflexivity | constructor].
  - apply Forall2_cons_inv_l in Hl as (x & l' & Hx & Hl' & ->).
    destruct (IH l' Hl') as [Hlen Hall].
    split; [cbn; now rewrite Hlen | now constructor].
Qed.

(** A sequence of the discrete action space, on either platform, is
    NUM_JOINTS joint values in 0 .. NUM_JOINT_STATES-1 followed by two grip
    values that are 0 or 1. *)
Lemma contains_ints_shape (platform : string) (kwargs : gmap string pyval)
    (env : SoloToriEnv.t) (items : list Z) :
  SoloToriEnv.__init__ ToriEnv_init platform kwargs = Ok env ->
  contains_ints (SoloToriEnv.action_space env) items ->
  exists joints grips,
    items = joints ++ grips /\ length joints = NUM_JOINTS /\
    Forall (fun v => (0 <= v < NUM_JOINT_STATES)%Z) joints /\
    Forall (fun v => (0 <= v <= 1)%Z) grips.
Proof.
  intros Hinit Hin. apply init_action_space in Hinit.
  rewrite Hinit in Hin.
  destruct (String.eqb platform "win32");
    cbn [contains_ints] in Hin; unfold multidiscrete_contains in Hin;
    apply Forall2_app_inv_l in Hin as (joints & grips & Hj & Hg & ->);
    apply Forall2_replicate_l in Hj as [Hlen Hj];
    apply (Forall2_replicate_l _ 2) in Hg as [_ Hg];
    exists joints, grips; (split; [reflexivity |]); (split; [exact Hlen |]);
    split.
  - eapply Forall_impl; [exact Hj |]. intros v Hv. cbn beta in Hv.
    apply dim_admits_range in Hv. lia.
  - eapply Forall_impl; [exact Hg |]. intros v Hv. cbn beta in Hv.
    apply dim_admits_range in Hv. lia.
  - eapply Forall_impl; [exact Hj |]. intros v Hv. cbn beta in Hv.
    apply dim_admits_size in Hv. lia.
  - eapply Forall_impl; [exact Hg |]. intros v Hv. cbn beta in Hv.
    apply dim_admits_size in Hv. lia.
Qed.

(** X4. Every action of the action space a constructed discrete adapter
    declares is accepted by its action hook, and player 1's sequence then
    holds NUM_JOINTS joint states in 1 .. NUM_JOINT_STATES followed by two
    grips in 0 .. 1 (the shift from [0,3] to [1,4] the source announces). *)
Theorem preprocess_action_of_action_space (platform : string)
    (kwargs : gmap string pyval) (env : SoloToriEnv.t)
    (h : gmap loc pyseq) (action : loc) (items : list Z) :
  SoloToriEnv.__init__ ToriEnv_init platform kwargs = Ok env ->
  contains_ints (SoloToriEnv.action_space env) items ->
  seq_items <$> h !! action = Some items ->
  exists h' plr0 joints grips,
    SoloToriEnv._preprocess_action action h
    = (h', Ok (plr0, replicate NUM_CONTROLLABLES 1%Z)) /\
    h' !! plr0 = Some (PyList (joints ++ grips)) /\
    length joints = NUM_JOINTS /\ length grips = 2 /\
    Forall (fun c => (1 <= c <= NUM_JOINT_STATES)%Z) joints /\
    Forall (fun c => (0 <= c <= 1)%Z) grips.
Proof.
  intros Hinit Hin Hh.
  assert (Hlen2 : length items = NUM_JOINTS + 2).
  { apply init_action_space in Hinit. rewrite Hinit in Hin.
    destruct (String.eqb platform "win32"); cbn [contains_ints] in Hin;
      apply Forall2_length in Hin; rewrite <- Hin, length_app, length_replicate;
      reflexivity. }
  destruct (contains_ints_shape platform kwargs env items Hinit Hin)
    as (joints & grips & -> & Hlen & Hj & Hg).
  assert (Hgl : length grips = 2) by (rewrite length_app in Hlen2; lia).
  destruct (preprocess_action_increments_joints_shape h action _ Hh)
    as (h' & plr0 & Hrun & Hout); [lia |].
  rewrite take_app_length', drop_app_length' in Hout by (now rewrite Hlen).
  exists h', plr0, (map (fun x => (x + 1)%Z) joints), grips.
  split; [exact Hrun |]. split; [exact Hout |].
  split; [now rewrite length_map |]. split; [exact Hgl |].
  split; [| exact Hg].
  apply Forall_fmap. eapply Forall_impl; [exact Hj |].
  intros v Hv. unfold compose. cbn beta in *. lia.
Qed.

Lemma joint_code_in_box (v : R) :
  (0 <= v <= 39 / 10)%R -> (1 <= joint_code v <= 4)%Z.
Proof.
  intros Hv. split; [| apply joint_code_range].
  apply Zfloor_lub. unfold np_clip.
  rewrite Rmax_left, Rmin_left by lra. lra.
Qed.

(** X5. Every action of the box a constructed continuous adapter declares
    (NUM_CONTROLLABLES reals between 0 and 3.9, with at least the two
    grips) is accepted by its action hook; in player 1's sequence all
    entries but the last two are joint states in 1 .. 4, so the state 0 is
    never produced from inside the box, and the last two are 0 or 1. *)
Theorem preprocess_action_of_box (kwargs : gmap string pyval)
    (env : SoloContToriEnv.t) (h : gmap loc (list R)) (action : loc)
    (a : list R) :
  SoloContToriEnv.__init__ ToriEnv_init kwargs = Ok env ->
  contains_reals (SoloContToriEnv.action_space env) a ->
  2 <= NUM_CONTROLLABLES ->
  h !! action = Some a ->
  exists h' joints grips,
    SoloContToriEnv._preprocess_action action h
    = (h', Ok (joints ++ grips, replicate NUM_CONTROLLABLES 1%Z)) /\
    length joints = NUM_CONTROLLABLES - 2 /\ length grips = 2 /\
    Forall (fun c => (1 <= c <= 4)%Z) joints /\
    Forall (fun c => (0 <= c <= 1)%Z) grips.
Proof.
  intros Hinit Hin Hnc Hh.
  assert (Hbox : length a = NUM_CONTROLLABLES /\
                 Forall (fun v => (0 <= v <= 39 / 10)%R) a).
  { unfold SoloContToriEnv.__init__ in Hinit.
    destruct (ToriEnv_init kwargs) as [super |]; [| discriminate].
    destruct (getitem kwargs "reward_func") as [f |]; [| discriminate].
    cbn [rbind] in Hinit. injection Hinit as <-.
    cbn in Hin. destruct Hin as [Hshape Hall].
    split; [now injection Hshape | exact Hall]. }
  destruct Hbox as [Hlen Hall].
  destruct (split_joints_grips (NUM_CONTROLLABLES - 2) a)
    as (g1 & g2 & Ha & _); [lia |].
  rewrite Ha in Hh, Hall.
  apply Forall_app in Hall as [Hjs _].
  eexists _, (map joint_code (take (NUM_CONTROLLABLES - 2) a)),
    [grip_code g1; grip_code g2].
  split; [exact (preprocess_action_run h action _ g1 g2 Hh) |].
  split; [rewrite length_map, length_take; lia |].
  split; [reflexivity |]. split.
  - apply Forall_fmap. eapply Forall_impl; [exact Hjs |].
    intros v Hv. now apply joint_code_in_box.
  - do 2 (constructor; [apply grip_code_range |]). constructor.
Qed.

End ActionsInSpace.

(** ** The continuous action hook beyond the expected length *)

Section ContinuousActionEdges.
Context {tc : ToribashConstants}.
Implicit Types (h : gmap loc (list R)) (a : list R) (action : loc).

(** X7. An array of fewer than two elements makes the continuous action
    hook raise [IndexError] at [action[-2]]; by then [action += 1] has
    already been applied to the caller's array. *)
Theorem preprocess_action_short_array h action a :
  h !! action = Some a ->
  length a < 2 ->
  SoloContToriEnv._preprocess_action action h
  = (<[action := map (fun x => (x + 1)%R) a]> h, Raise IndexError).
Proof.
  intros Hh Hlen. unfold SoloContToriEnv._preprocess_action.
  set (a1 := map (fun x => (x + 1)%R) a).
  assert (Hlen1 : length a1 = length a) by apply length_map.
  rewrite (bind_ok _ _ _ _ _ (iadd_all_run h action a 1 Hh)). fold a1.
  assert (Hget : SoloContToriEnv.get_init action 2 (<[action := a1]> h)
                 = (<[action := a1]> h, Ok [])).
  { unfold SoloContToriEnv.get_init. rewrite lookup_insert_eq.
    now replace (length a1 - 2) with 0 by lia. }
  rewrite (bind_ok _ _ _ _ _ Hget). cbn [map].
  assert (Hset : SoloContToriEnv.set_init action 2 [] (<[action := a1]> h)
                 = (<[action := a1]> h, Ok tt)).
  { unfold SoloContToriEnv.set_init. rewrite lookup_insert_eq.
    replace (length a1 - 2) with 0 by lia.
    rewrite decide_True by reflexivity.
    cbn [app]. rewrite drop_0. now rewrite insert_insert_eq. }
  rewrite (bind_ok _ _ _ _ _ Hset).
  unfold bind at 1.
  now rewrite (get_neg_out_of_range _ action a1 2 (lookup_insert_eq _ _ _))
    by lia.
Qed.

Lemma joint_code_whole (k : Z) :
  (-1 <= k <= 3)%Z -> joint_code (IZR k) = (k + 1)%Z.
Proof.
  intros Hk. unfold joint_code, np_clip.
  assert (H1 : (-1 <= IZR k)%R) by (apply (IZR_le (-1)); lia).
  assert (H2 : (IZR k <= 3)%R) by (apply (IZR_le k 3); lia).
  rewrite Rmax_left, Rmin_left by lra.
  apply Zfloor_eq. rewrite plus_IZR. lra.
Qed.

Lemma grip_code_whole (k : Z) :
  (0 <= k <= 1)%Z -> grip_code (IZR k) = k.
Proof.
  intros Hk. unfold grip_code, np_clip.
  assert (H1 : (0 <= IZR k)%R) by (apply (IZR_le 0); lia).
  assert (H2 : (IZR k <= 1)%R) by (apply (IZR_le k 1); lia).
  rewrite Rmax_left, Rmin_left by lra.
  apply Zfloor_eq. lra.
Qed.

Lemma joint_code_saturates (c : Z) :
  (0 <= c <= 4)%Z -> joint_code (IZR c) = Z.min (c + 1) 4%Z.
Proof.
  intros Hc. destruct (decide (c = 4%Z)) as [-> | Hne].
  - change (Z.min (4 + 1) 4) with 4%Z. unfold joint_code, np_clip.
    rewrite Rmax_left, Rmin_right by lra.
    apply Zfloor_eq. lra.
  - rewrite joint_code_whole by lia. lia.
Qed.

(** X8. The two adapters agree on whole-numbered actions: when the
    NUM_JOINTS joint values lie in 0 .. 3 and the two grips in 0 .. 1, the
    continuous hook applied to the array of the same numbers returns the
    very player-1 sequence the discrete hook produces, and the same
    player-2 sequence. *)
Theorem adapters_agree_on_whole_actions
    (hd : gmap loc pyseq) (hc : gmap loc (list R)) (ad ac : loc)
    (items : list Z) :
  seq_items <$> hd !! ad = Some items ->
  hc !! ac = Some (map IZR items) ->
  length items = NUM_JOINTS + 2 ->
  Forall (fun v => (0 <= v <= 3)%Z) (take NUM_JOINTS items) ->
  Forall (fun v => (0 <= v <= 1)%Z) (drop NUM_JOINTS items) ->
  exists hd' hc' plr0 out plr1,
    SoloToriEnv._preprocess_action ad hd = (hd', Ok (plr0, plr1)) /\
    hd' !! plr0 = Some (PyList out) /\
    SoloContToriEnv._preprocess_action ac hc = (hc', Ok (out, plr1)).
Proof.
  intros Hd Hc Hlen Hjs Hgs.
  destruct (preprocess_action_increments_joints_shape hd ad items Hd)
    as (hd' & plr0 & Hrund & Hout); [lia |].
  assert (Hd2 : length (drop NUM_JOINTS items) = 2)
    by (rewrite length_drop; lia).
  destruct (drop NUM_JOINTS items) as [| g1 [| g2 [| ? ?]]] eqn:Hdrop;
    try discriminate.
  assert (Hitems : items = take NUM_JOINTS items ++ [g1; g2])
    by (now rewrite <- Hdrop, take_drop).
  rewrite Hitems, map_app in Hc. cbn [map] in Hc.
  eexists hd', _, plr0, _, _.
  split; [exact Hrund |]. split; [exact Hout |].
  rewrite (preprocess_action_run hc ac _ _ _ Hc).
  apply Forall_cons in Hgs as [Hg1 Hgs].
  apply Forall_cons in Hgs as [Hg2 _].
  rewrite !grip_code_whole by lia.
  do 4 f_equal.
  rewrite map_map. apply Forall_fmap_ext_1.
  eapply Forall_impl; [exact Hjs |].
  intros v Hv. cbn beta in *. apply joint_code_whole. lia.
Qed.

(** X9. Like the discrete hook on a list, the continuous hook works in
    place: handing it the same array twice returns, the second time, every
    joint state one higher than the first time, capped at 4, and the same
    grips. *)
Theorem preprocess_action_twice_on_array h action a :
  h !! action = Some a ->
  2 <= length a ->
  exists h1 h2 joints grips plr1,
    SoloContToriEnv._preprocess_action action h
    = (h1, Ok (joints ++ grips, plr1)) /\
    length grips = 2 /\
    SoloContToriEnv._preprocess_action action h1
    = (h2, Ok (map (fun c => Z.min (c + 1) 4%Z) joints ++ grips, plr1)).
Proof.
  intros Hh Hlen.
  destruct (split_joints_grips (length a - 2) a) as (g1 & g2 & Ha & _);
    [lia |].
  rewrite Ha in Hh. set (js := take (length a - 2) a) in *.
  eexists _, _, (map joint_code js), [grip_code g1; grip_code g2], _.
  split; [exact (preprocess_action_run h action js g1 g2 Hh) |].
  split; [reflexivity |].
  rewrite <- (map_map joint_code IZR js).
  rewrite (preprocess_action_run _ action _ _ _ (lookup_insert_eq _ _ _)).
  rewrite insert_insert_eq.
  rewrite !grip_code_whole by apply grip_code_range.
  do 4 f_equal.
  rewrite !map_map. apply map_ext. intros v.
  apply joint_code_saturates, joint_code_range.
Qed.

End ContinuousActionEdges.

(** ** The rewards along a trajectory *)

Section RewardShape.
Local Open Scope R_scope.

(** The distance from the origin of a position of any number of
    coordinates, as [reward_run_away] computes it. *)
Lemma reward_run_away_ok (old_state new_state : State) (po pn : list R) :
  index00 (limb_positions old_state) = Ok po ->
  index00 (limb_positions new_state) = Ok pn ->
  reward_run_away old_state new_state
  = Ok (sqrt (np_sum (np_square pn)) - sqrt (np_sum (np_square po))).
Proof.
  intros Ho Hn. unfold reward_run_away. now rewrite Ho, Hn.
Qed.

Lemma index00_raise (state : State) (e : exn) :
  index00 (limb_positions state) = Raise e <->
  e = IndexError /\ head_missing state.
Proof.
  unfold index00, head_missing.
  destruct (limb_positions state) as [| [| pos limbs] players]; cbn.
  - split; [intros [= <-]; auto | intros [-> _]; reflexivity].
  - split; [intros [= <-]; eauto | intros [-> _]; reflexivity].
  - split; [discriminate |].
    intros [_ [Hnil | [others Hcons]]]; discriminate.
Qed.

(** X11. The only exception [reward_run_away] raises is [IndexError], and
    it raises it exactly when the old or the new state has no head for
    player 1; on all other pairs of states it returns a number. *)
Theorem reward_run_away_raises (old_state new_state : State) :
  (forall e, reward_run_away old_state new_state = Raise e -> e = IndexError) /\
  (reward_run_away old_state new_state = Raise IndexError <->
   head_missing old_state \/ head_missing new_state) /\
  ((exists r, reward_run_away old_state new_state = Ok r) <->
   ~ (head_missing old_state \/ head_missing new_state)).
Proof.
  pose proof (index00_raise old_state) as Ho.
  pose proof (index00_raise new_state) as Hn.
  unfold reward_run_away.
  destruct (index00 (limb_positions old_state)) as [po | eo];
    [destruct (index00 (limb_positions new_state)) as [pn | en] |];
    cbn [rbind].
  - assert (Hno : ~ head_missing old_state)
      by (intros Hm; pose proof (proj2 (Ho IndexError) (conj eq_refl Hm));
          discriminate).
    assert (Hnn : ~ head_missing new_state)
      by (intros Hm; pose proof (proj2 (Hn IndexError) (conj eq_refl Hm));
          discriminate).
    split; [discriminate |]. split.
    + split; [discriminate | tauto].
    + split; [tauto | eauto].
  - destruct (proj1 (Hn en) eq_refl) as [-> Hm].
    split; [now intros e [= <-] |]. split.
    + split; [auto | reflexivity].
    + split; [intros [r Hr]; discriminate | tauto].
  - destruct (proj1 (Ho eo) eq_refl) as [-> Hm].
    split; [now intros e [= <-] |]. split.
    + split; [auto | reflexivity].
    + split; [intros [r Hr]; discriminate | tauto].
Qed.

(** X13. [reward_self_destruct] has the sign of the injury delta: it is
    positive exactly when the injury grew, zero exactly when the injury is
    unchanged, and [reward_stay_safe] then has the opposite sign. *)
Theorem reward_self_destruct_sign (old_state new_state : State) :
  (0 < reward_self_destruct old_state new_state <->
   plr0_injury old_state < plr0_injury new_state) /\
  (reward_self_destruct old_state new_state = 0 <->
   plr0_injury old_state = plr0_injury new_state) /\
  (reward_stay_safe old_state new_state < 0 <->
   plr0_injury old_state < plr0_injury new_state).
Proof.
  rewrite (reward_stay_safe_negates old_state new_state).
  unfold reward_self_destruct.
  destruct (Rlt_dec 1 (plr0_injury new_state - plr0_injury old_state))
    as [Hgt | Hle]; cbn zeta.
  - pose proof (log10_pos _ Hgt). repeat split; intros; lra.
  - repeat split; intros; lra.
Qed.

End RewardShape.

(** ** Construction, the reward hook and the observation space *)

Section ConstructionEdges.
Context {tc : ToribashConstants}.
Context {ToriEnv : Type} (ToriEnv_init : gmap string pyval -> result ToriEnv).

(** X15. Without the key "reward_func" neither constructor ever returns an
    object: both raise the same exception, which is the one of the base
    constructor when that one fails (it runs first) and
    [KeyError "reward_func"] otherwise. *)
Theorem init_missing_key_raises (platform : string)
    (kwargs : gmap string pyval) :
  kwargs !! "reward_func" = None ->
  exists e,
    SoloToriEnv.__init__ ToriEnv_init platform kwargs = Raise e /\
    SoloContToriEnv.__init__ ToriEnv_init kwargs = Raise e /\
    (ToriEnv_init kwargs = Raise e \/
     (exists super, ToriEnv_init kwargs = Ok super) /\
     e = KeyError "reward_func").
Proof.
  intros Hkey.
  unfold SoloToriEnv.__init__, SoloContToriEnv.__init__, getitem.
  rewrite Hkey.
  destruct (ToriEnv_init kwargs) as [super | e]; cbn [rbind].
  - exists (KeyError "reward_func"). repeat split. right. eauto.
  - exists e. repeat split. now left.
Qed.

(** X16. The constructors store whatever value the key "reward_func"
    carries without checking that it can be called: with a value that is
    not callable both constructions succeed, and it is the reward hook that
    raises [TypeError], on every pair of states. *)
Theorem reward_hook_not_callable (platform : string)
    (kwargs : gmap string pyval) (super : ToriEnv) (f : pyval) :
  ToriEnv_init kwargs = Ok super ->
  kwargs !! "reward_func" = Some f ->
  (forall g, f <> PyCallable g) ->
  (exists env,
     SoloToriEnv.__init__ ToriEnv_init platform kwargs = Ok env /\
     forall old_state new_state,
       SoloToriEnv._reward_function env old_state new_state = Raise TypeError) /\
  (exists env,
     SoloContToriEnv.__init__ ToriEnv_init kwargs = Ok env /\
     forall old_state new_state,
       SoloContToriEnv._reward_function env old_state new_state
       = Raise TypeError).
Proof.
  intros Hbase Hkey Hf.
  unfold SoloToriEnv.__init__, SoloContToriEnv.__init__, getitem.
  rewrite Hbase, Hkey. cbn [rbind].
  split; eexists; (split; [reflexivity |]); intros old_state new_state;
    unfold SoloToriEnv._reward_function, SoloContToriEnv._reward_function;
    cbn [SoloToriEnv.reward_func SoloContToriEnv.reward_func];
    destruct f as [g | | |]; try reflexivity; now destruct (Hf g).
Qed.

Lemma Forall_concat_iff {A : Type} (P : A -> Prop) (ls : list (list A)) :
  Forall P (concat ls) <-> Forall (Forall P) ls.
Proof.
  induction ls as [| l ls IH]; cbn.
  - split; constructor.
  - rewrite Forall_app, IH. split.
    + intros [Hl Hls]. now constructor.
    + intros Hall. apply Forall_cons in Hall. exact Hall.
Qed.

(** X17. For a state whose first player has NUM_LIMBS limbs of 3
    coordinates, the observation either adapter returns has the shape of
    the observation space that adapter declared at construction, and it
    lies in that space exactly when every coordinate of the first player
    lies between -30 and 30: the hook does not clip. *)
Theorem observation_in_observation_space (platform : string)
    (kwargs : gmap string pyval) (env : SoloToriEnv.t)
    (envc : SoloContToriEnv.t) (state : State)
    (plr0 : list (list R)) (others : list (list (list R))) :
  SoloToriEnv.__init__ ToriEnv_init platform kwargs = Ok env ->
  SoloContToriEnv.__init__ ToriEnv_init kwargs = Ok envc ->
  limb_positions state = plr0 :: others ->
  length plr0 = NUM_LIMBS ->
  Forall (fun limb => length limb = 3) plr0 ->
  exists obs,
    SoloToriEnv._preprocess_observation state = Ok obs /\
    SoloContToriEnv._preprocess_observation state = Ok obs /\
    SoloToriEnv.observation_space env = Box (-30) 30 [length obs] /\
    SoloContToriEnv.observation_space envc = Box (-30) 30 [length obs] /\
    (contains_reals (SoloToriEnv.observation_space env) obs <->
     Forall (Forall (fun c => (-30 <= c <= 30)%R)) plr0) /\
    (contains_reals (SoloContToriEnv.observation_space envc) obs <->
     Forall (Forall (fun c => (-30 <= c <= 30)%R)) plr0).
Proof.
  intros Hinit Hinitc Hpos Hlimbs Hcoords.
  assert (Hlen : length (concat plr0) = NUM_LIMBS * 3)
    by (rewrite (length_concat_uniform 3) by exact Hcoords; now rewrite Hlimbs).
  assert (Hsp : SoloToriEnv.observation_space env
                = Box (-30) 30 [NUM_LIMBS * 3]).
  { unfold SoloToriEnv.__init__ in Hinit.
    destruct (ToriEnv_init kwargs) as [super |]; [| discriminate].
    destruct (getitem kwargs "reward_func") as [f |]; [| discriminate].
    cbn [rbind] in Hinit. now injection Hinit as <-. }
  assert (Hspc : SoloContToriEnv.observation_space envc
                 = Box (-30) 30 [NUM_LIMBS * 3]).
  { unfold SoloContToriEnv.__init__ in Hinitc.
    destruct (ToriEnv_init kwargs) as [super |]; [| discriminate].
    destruct (getitem kwargs "reward_func") as [f |]; [| discriminate].
    cbn [rbind] in Hinitc. now injection Hinitc as <-. }
  exists (concat plr0).
  unfold SoloToriEnv._preprocess_observation,
    SoloContToriEnv._preprocess_observation.
  rewrite Hpos, Hsp, Hspc, Hlen. cbn [index0 rbind contains_reals].
  unfold box_contains. rewrite Hlen, Forall_concat_iff.
  repeat split; tauto.
Qed.

End ConstructionEdges.

(** ** The further properties on the sample data *)

(** X1 on a list and on a tuple of three entries, with 20 joints. *)
Lemma preprocess_action_short_sequence_witness :
  SoloToriEnv._preprocess_action (tc := toribash) 1%positive short_list_store
  = (<[1%positive := PyList (map (fun x => (x + 1)%Z) [5; 6; 7]%Z)]>
       short_list_store,
     Raise IndexError) /\
  (exists h',
     SoloToriEnv._preprocess_action (tc := toribash) 1%positive
       short_tuple_store = (h', Raise IndexError) /\
     h' !! 1%positive = Some (PyOtherSeq [5; 6; 7]%Z)).
Proof.
  split.
  - apply (proj1 (preprocess_action_short_sequence (tc := toribash)
                    short_list_store 1%positive [5; 6; 7]%Z
                    ltac:(vm_compute; lia))).
    reflexivity.
  - apply (proj2 (preprocess_action_short_sequence (tc := toribash)
                    short_tuple_store 1%positive [5; 6; 7]%Z
                    ltac:(vm_compute; lia))).
    reflexivity.
Defined.

(** X2 on a list of 25 entries, with 20 joints and 22 controllables. *)
Lemma preprocess_action_any_length_witness :
  exists h' plr0 out,
    SoloToriEnv._preprocess_action (tc := toribash) 1%positive long_list_store
    = (h', Ok (plr0, replicate 22 1%Z)) /\
    h' !! plr0 = Some (PyList out) /\
    length out = 25.
Proof.
  destruct (preprocess_action_any_length (tc := toribash) long_list_store
              1%positive (replicate 25 0%Z) eq_refl ltac:(vm_compute; lia))
    as (h' & plr0 & out & Hrun & Hout & Hlen & _).
  exists h', plr0, out. split; [exact Hrun |]. split; [exact Hout | exact Hlen].
Defined.

(** X3 (the list handed over twice) on the all-zeros list. *)
Lemma preprocess_action_twice_on_list_witness :
  exists h1 h2,
    SoloToriEnv._preprocess_action (tc := toribash) 1%positive zeros_list_store
    = (h1, Ok (1%positive, replicate 22 1%Z)) /\
    SoloToriEnv._preprocess_action (tc := toribash) 1%positive h1
    = (h2, Ok (1%positive, replicate 22 1%Z)) /\
    h2 !! 1%positive = Some (PyList (replicate 20 2%Z ++ [0; 0]%Z)).
Proof.
  destruct (preprocess_action_twice_on_list (tc := toribash) zeros_list_store
              1%positive (replicate 22 0%Z) eq_refl ltac:(vm_compute; lia))
    as (h1 & h2 & Hrun1 & Hrun2 & Hlist).
  exists h1, h2. split; [exact Hrun1 |]. split; [exact Hrun2 | exact Hlist].
Defined.

(** The objects the constructors return on [config_none] when the base
    constructor returns the unit value. *)
Lemma init_config_none_linux :
  SoloToriEnv.__init__ (tc := toribash) (fun _ => Ok tt) "linux" config_none
  = Ok {| SoloToriEnv.base := tt; SoloToriEnv.reward_func := PyNone;
          SoloToriEnv.action_space :=
            MultiDiscrete (replicate 20 (DSize 4) ++ replicate 2 (DSize 1));
          SoloToriEnv.observation_space := Box (-30) 30 [63] |}.
Proof.
  unfold SoloToriEnv.__init__, getitem, config_none.
  rewrite lookup_singleton_eq. reflexivity.
Defined.

Lemma init_cont_config_none :
  SoloContToriEnv.__init__ (tc := toribash) (fun _ => Ok tt) config_none
  = Ok {| SoloContToriEnv.base := tt; SoloContToriEnv.reward_func := PyNone;
          SoloContToriEnv.action_space := Box 0 (39 / 10) [22];
          SoloContToriEnv.observation_space := Box (-30) 30 [63] |}.
Proof.
  unfold SoloContToriEnv.__init__, getitem, config_none.
  rewrite lookup_singleton_eq. reflexivity.
Defined.

(** X4 (actions of the discrete space) on the all-zeros list and the
    space built on "linux". *)
Lemma preprocess_action_of_action_space_witness :
  exists h' plr0 joints grips,
    SoloToriEnv._preprocess_action (tc := toribash) 1%positive zeros_list_store
    = (h', Ok (plr0, replicate 22 1%Z)) /\
    h' !! plr0 = Some (PyList (joints ++ grips)) /\
    length joints = 20 /\ length grips = 2 /\
    Forall (fun c => (1 <= c <= 4)%Z) joints /\
    Forall (fun c => (0 <= c <= 1)%Z) grips.
Proof.
  apply (preprocess_action_of_action_space (tc := toribash) (fun _ => Ok tt)
           "linux" config_none _ zeros_list_store 1%positive
           (replicate 22 0%Z) init_config_none_linux).
  - cbn [SoloToriEnv.action_space contains_ints].
    unfold multidiscrete_contains. cbn [replicate app].
    repeat (constructor; [reflexivity |]). constructor.
  - reflexivity.
Defined.

(** X5 (actions of the box) on the all-zeros array. *)
Lemma preprocess_action_of_box_witness :
  exists h' joints grips,
    SoloContToriEnv._preprocess_action (tc := toribash) 1%positive
      zeros_array_store
    = (h', Ok (joints ++ grips, replicate 22 1%Z)) /\
    length joints = 22 - 2 /\ length grips = 2 /\
    Forall (fun c => (1 <= c <= 4)%Z) joints /\
    Forall (fun c => (0 <= c <= 1)%Z) grips.
Proof.
  apply (preprocess_action_of_box (tc := toribash) (fun _ => Ok tt)
           config_none _ zeros_array_store 1%positive (replicate 22 0%R)
           init_cont_config_none).
  - cbn [SoloContToriEnv.action_space contains_reals]. split.
    + reflexivity.
    + apply Forall_replicate. lra.
  - cbn. lia.
  - reflexivity.
Defined.

(** X7 (an array too short) on an array of one element. *)
Lemma preprocess_action_short_array_witness :
  SoloContToriEnv._preprocess_action (tc := toribash) 1%positive
    short_array_store
  = (<[1%positive := map (fun x => (x + 1)%R) [0%R]]> short_array_store,
     Raise IndexError).
Proof.
  apply (preprocess_action_short_array (tc := toribash) short_array_store
           1%positive [0%R] eq_refl).
  cbn. lia.
Defined.

(** X8 (the adapters agree) on the all-zeros action. *)
Lemma adapters_agree_on_whole_actions_witness :
  exists hd' hc' plr0 out plr1,
    SoloToriEnv._preprocess_action (tc := toribash) 1%positive zeros_list_store
    = (hd', Ok (plr0, plr1)) /\
    hd' !! plr0 = Some (PyList out) /\
    SoloContToriEnv._preprocess_action (tc := toribash) 1%positive
      zeros_array_store
    = (hc', Ok (out, plr1)).
Proof.
  apply (adapters_agree_on_whole_actions (tc := toribash) zeros_list_store
           zeros_array_store 1%positive 1%positive (replicate 22 0%Z)).
  - reflexivity.
  - reflexivity.
  - reflexivity.
  - change (Forall (fun v => (0 <= v <= 3)%Z) (replicate 20 0%Z)).
    apply Forall_replicate. lia.
  - change (Forall (fun v => (0 <= v <= 1)%Z) (replicate 2 0%Z)).
    apply Forall_replicate. lia.
Defined.

(** X9 (the array handed over twice) on the all-zeros array. *)
Lemma preprocess_action_twice_on_array_witness :
  exists h1 h2 joints grips plr1,
    SoloContToriEnv._preprocess_action (tc := toribash) 1%positive
      zeros_array_store
    = (h1, Ok (joints ++ grips, plr1)) /\
    length grips = 2 /\
    SoloContToriEnv._preprocess_action (tc := toribash) 1%positive h1
    = (h2, Ok (map (fun c => Z.min (c + 1) 4%Z) joints ++ grips, plr1)).
Proof.
  apply (preprocess_action_twice_on_array (tc := toribash) zeros_array_store
           1%positive (replicate 22 0%R) eq_refl).
  cbn. lia.
Defined.

(** X15 (the missing key) on the empty configuration, with a base
    constructor that returns and with one that raises. *)
Lemma init_missing_key_raises_witness :
  (exists e,
     SoloToriEnv.__init__ (tc := toribash) (fun _ => Ok tt) "linux" ∅
     = Raise e /\
     SoloContToriEnv.__init__ (tc := toribash) (fun _ => Ok tt) ∅ = Raise e) /\
  (exists e,
     SoloToriEnv.__init__ (tc := toribash) (ToriEnv := unit)
       (fun _ => Raise ValueError) "linux" ∅ = Raise e /\
     SoloContToriEnv.__init__ (tc := toribash) (ToriEnv := unit)
       (fun _ => Raise ValueError) ∅ = Raise e).
Proof.
  split.
  - destruct (init_missing_key_raises (tc := toribash) (fun _ => Ok tt)
                "linux" ∅ (lookup_empty _)) as (e & H1 & H2 & _).
    exists e. split; [exact H1 | exact H2].
  - destruct (init_missing_key_raises (tc := toribash) (ToriEnv := unit)
                (fun _ => Raise ValueError) "linux" ∅ (lookup_empty _))
      as (e & H1 & H2 & _).
    exists e. split; [exact H1 | exact H2].
Defined.

(** X16 (a reward function that cannot be called) on [config_none]. *)
Lemma reward_hook_not_callable_witness :
  (exists env,
     SoloToriEnv.__init__ (tc := toribash) (fun _ => Ok tt) "linux" config_none
     = Ok env /\
     forall old_state new_state,
       SoloToriEnv._reward_function env old_state new_state = Raise TypeError) /\
  (exists env,
     SoloContToriEnv.__init__ (tc := toribash) (fun _ => Ok tt) config_none
     = Ok env /\
     forall old_state new_state,
       SoloContToriEnv._reward_function env old_state new_state
       = Raise TypeError).
Proof.
  apply (reward_hook_not_callable (tc := toribash) (fun _ => Ok tt) "linux"
           config_none tt PyNone eq_refl).
  - apply lookup_singleton_eq.
  - intros g. discriminate.
Defined.

(** X17 (the observation and its space) on the state of two players at
    rest. *)
Lemma observation_in_observation_space_witness :
  exists obs,
    SoloToriEnv._preprocess_observation state_at_rest = Ok obs /\
    SoloContToriEnv._preprocess_observation state_at_rest = Ok obs /\
    length obs = 63 /\
    contains_reals (Box (-30) 30 [63]) obs.
Proof.
  destruct (observation_in_observation_space (tc := toribash)
              (fun _ => Ok tt) "linux" config_none _ _ state_at_rest
              (replicate 21 [0; 0; 0]%R) [replicate 21 [1; 1; 1]%R]
              init_config_none_linux init_cont_config_none
              eq_refl eq_refl
              ltac:(apply Forall_replicate; reflexivity))
    as (obs & Hobs & Hobsc & Hsp & _ & Hin & _).
  exists obs. split; [exact Hobs |]. split; [exact Hobsc |].
  cbn [SoloToriEnv.observation_space] in Hsp, Hin.
  injection Hsp as Hlen. split; [now symmetry |].
  apply Hin. apply Forall_replicate.
  repeat (constructor; [lra |]). constructor.
Defined.

(** X11 (the raise) on a state without players, as the old and as the new
    state. *)
Lemma reward_run_away_raises_witness :
  reward_run_away state_no_player (state_of 0 3 4 0) = Raise IndexError /\
  reward_run_away (state_of 0 3 4 0) state_no_player = Raise IndexError.
Proof.
  split.
  - apply (proj1 (proj2 (reward_run_away_raises
                           state_no_player (state_of 0 3 4 0)))).
    left. left. reflexivity.
  - apply (proj1 (proj2 (reward_run_away_raises
                           (state_of 0 3 4 0) state_no_player))).
    right. left. reflexivity.
Defined.

(** X13 (the sign) on an injury rising from 0 to 10. *)
Lemma reward_self_destruct_sign_witness :
  (0 < reward_self_destruct (state_of 0 0 0 0) (state_of 10 0 0 0))%R /\
  (reward_stay_safe (state_of 0 0 0 0) (state_of 10 0 0 0) < 0)%R.
Proof.
  split.
  - apply (proj1 (reward_self_destruct_sign
                    (state_of 0 0 0 0) (state_of 10 0 0 0))).
    simpl. lra.
  - apply (proj2 (proj2 (reward_self_destruct_sign
                           (state_of 0 0 0 0) (state_of 10 0 0 0)))).
    simpl. lra.
Defined.

(** * The continuous action hook on binary64 numbers *)

Module Float64Facts.
Import PrimFloat SpecFloat FloatOps FloatAxioms Float64.

(** ** The numbers *)

Lemma digits2_pos_bound (m : positive) :
  (Zpos m < 2 ^ Zpos (digits2_pos m))%Z.
Proof.
  induction m as [m IH | m IH |]; cbn [digits2_pos].
  - rewrite Pos2Z.inj_succ, Z.pow_succ_r by lia. lia.
  - rewrite Pos2Z.inj_succ, Z.pow_succ_r by lia. lia.
  - reflexivity.
Qed.

Lemma valid_mantissa_bound (s : bool) (m : positive) (e : Z) :
  valid_binary (S754_finite s m e) = true -> (Zpos m < 2 ^ 53)%Z.
Proof.
  cbn [SpecFloat.valid_binary]. unfold bounded, canonical_mantissa, fexp.
  intros H. apply andb_prop in H as [H _]. apply Z.eqb_eq in H.
  pose proof (digits2_pos_bound m) as Hd.
  assert (Hle : (Zpos (digits2_pos m) <= 53)%Z) by (unfold prec in H; lia).
  eapply Z.lt_le_trans; [exact Hd |].
  apply Z.pow_le_mono_r; lia.
Qed.

(** Rounding a non-negative mantissa never yields a nan. *)
Lemma shr_1_nonneg mrs : (0 <= shr_m mrs)%Z -> (0 <= shr_m (shr_1 mrs))%Z.
Proof.
  destruct mrs as [m r s]. cbn [shr_m]. intros Hm.
  destruct m as [| [p | p |] | p]; cbn; lia.
Qed.

Lemma iter_pos_shr_1_nonneg (p : positive) mrs :
  (0 <= shr_m mrs)%Z -> (0 <= shr_m (iter_pos shr_1 p mrs))%Z.
Proof.
  revert mrs. induction p as [p IH | p IH |]; intros mrs Hm; cbn [iter_pos].
  - apply IH, IH, shr_1_nonneg, Hm.
  - apply IH, IH, Hm.
  - apply shr_1_nonneg, Hm.
Qed.

Lemma shr_fexp_nonneg (m e : Z) l :
  (0 <= m)%Z -> (0 <= shr_m (fst (shr_fexp prec emax m e l)))%Z.
Proof.
  intros Hm. unfold shr_fexp, shr.
  assert (H0 : (0 <= shr_m (shr_record_of_loc m l))%Z)
    by (destruct l as [| []]; exact Hm).
  destruct (fexp prec emax (Zdigits2 m + e) - e)%Z; cbn [fst];
    [exact H0 | now apply iter_pos_shr_1_nonneg | exact H0].
Qed.

Lemma round_nearest_even_nonneg (m : Z) l :
  (0 <= m)%Z -> (0 <= round_nearest_even m l)%Z.
Proof.
  intros Hm. unfold round_nearest_even.
  destruct l as [| []]; try destruct (Z.even m); lia.
Qed.

Lemma binary_round_aux_not_nan (sx : bool) (mx ex : Z) l :
  (0 <= mx)%Z -> binary_round_aux prec emax sx mx ex l <> S754_nan.
Proof.
  intros Hm. unfold binary_round_aux.
  pose proof (shr_fexp_nonneg mx ex l Hm) as H1.
  destruct (shr_fexp prec emax mx ex l) as [mrs' e']. cbn [fst] in H1.
  pose proof (shr_fexp_nonneg _ e' loc_Exact
                (round_nearest_even_nonneg _ (loc_of_shr_record mrs') H1)) as H2.
  destruct (shr_fexp prec emax _ e' loc_Exact) as [mrs'' e'']. cbn [fst] in H2.
  destruct (shr_m mrs''); [discriminate | | lia].
  destruct (e'' <=? emax - prec)%Z; discriminate.
Qed.

Lemma binary_normalize_not_nan (m e : Z) (sz : bool) :
  binary_normalize prec emax m e sz <> S754_nan.
Proof.
  unfold binary_normalize, binary_round.
  destruct m as [| p | p]; [discriminate | |];
    destruct (shl_align _ _ _) as [mz ez];
    apply binary_round_aux_not_nan; lia.
Qed.

Lemma is_nan_spec (x : float) : is_nan x = false <-> Prim2SF x <> S754_nan.
Proof.
  unfold is_nan. rewrite eqb_spec. unfold SFeqb.
  destruct (Prim2SF x) as [s | s | | s m e]; cbn.
  - split; [discriminate | reflexivity].
  - destruct s; cbn; split; (discriminate || reflexivity).
  - split; [discriminate | congruence].
  - destruct s; rewrite Z.compare_refl, Pos.compare_cont_refl; cbn;
      split; (discriminate || reflexivity).
Qed.

Lemma add_one_not_nan (x : float) :
  is_nan x = false -> is_nan (x + 1)%float = false.
Proof.
  rewrite !is_nan_spec, add_spec.
  change (Prim2SF 1%float) with (S754_finite false 4503599627370496 (-52)).
  unfold SF64add, SFadd.
  destruct (Prim2SF x) as [s | s | | s m e]; intros Hx;
    [discriminate | discriminate | congruence |].
  apply binary_normalize_not_nan.
Qed.

Lemma sub_one_not_nan (x : float) :
  is_nan x = false -> is_nan (x - 1)%float = false.
Proof.
  rewrite !is_nan_spec, sub_spec.
  change (Prim2SF 1%float) with (S754_finite false 4503599627370496 (-52)).
  unfold SF64sub, SFsub.
  destruct (Prim2SF x) as [s | s | | s m e]; intros Hx;
    [discriminate | discriminate | congruence |].
  apply binary_normalize_not_nan.
Qed.


(** [np.clip] keeps a number that is not a nan between its bounds. *)
Lemma np_clip_between (x lo hi : float) :
  is_nan x = false ->
  PrimFloat.leb lo lo = true -> PrimFloat.leb lo hi = true ->
  PrimFloat.leb hi hi = true ->
  PrimFloat.leb lo (np_clip x lo hi) = true /\
  PrimFloat.leb (np_clip x lo hi) hi = true.
Proof.
  intros Hx Hlo Hlh Hhi. unfold np_clip, np_maximum, np_minimum.
  rewrite Hx, orb_false_r.
  destruct (PrimFloat.leb lo x) eqn:Hlx.
  - rewrite Hx, orb_false_r.
    destruct (PrimFloat.leb x hi) eqn:Hxh; auto.
  - assert (Hn : is_nan lo = false).
    { unfold is_nan. rewrite leb_spec in Hlo. rewrite eqb_spec.
      unfold SFleb, SFeqb in *.
      destruct (SFcompare (Prim2SF lo) (Prim2SF lo)) as [[] |] eqn:Hc;
        try discriminate; try reflexivity.
      destruct (Prim2SF lo) as [s | [] | | [] m e]; cbn in Hc;
        try discriminate;
        rewrite Z.compare_refl, Pos.compare_cont_refl in Hc; discriminate. }
    rewrite Hn, orb_false_r, Hlh. auto.
Qed.

Lemma shiftl_neg_div (a e : Z) :
  (e < 0)%Z -> Z.shiftl a e = (a / 2 ^ (- e))%Z.
Proof.
  intros He. rewrite <- (Z.opp_involutive e) at 1.
  rewrite Z.shiftl_opp_r. apply Z.shiftr_div_pow2. lia.
Qed.

(** The floor of a valid positive float below a normal bound. *)
Lemma floor_le_bound (m mc : positive) (e ec : Z) :
  (Zpos m < 2 ^ 53)%Z -> (2 ^ 52 <= Zpos mc)%Z -> (ec < 0)%Z ->
  SFleb (S754_finite false m e) (S754_finite false mc ec) = true ->
  (e < 0)%Z /\
  (0 <= Z.shiftl (Zpos m) e <= Z.shiftl (Zpos mc) ec)%Z.
Proof.
  intros Hm Hmc Hec Hle. unfold SFleb, SFcompare in Hle.
  assert (Hcase : (e < ec \/ (e = ec /\ Zpos m <= Zpos mc))%Z).
  { destruct (Z.compare_spec e ec) as [-> | Hlt | Hgt];
      [right | left; exact Hlt | discriminate].
    split; [reflexivity |].
    destruct (Pos.compare_cont Eq m mc) eqn:Hc; try discriminate;
      change (Pos.compare_cont Eq m mc) with (Pos.compare m mc) in Hc.
    - apply Pos.compare_eq in Hc. subst. lia.
    - rewrite Pos.compare_lt_iff in Hc. lia. }
  assert (He : (e < 0)%Z) by lia.
  split; [exact He |].
  rewrite !shiftl_neg_div by lia.
  split; [apply Z.div_pos; lia |].
  destruct Hcase as [Hlt | [-> Hmm]].
  - replace (- e)%Z with ((ec - e) + (- ec))%Z by lia.
    rewrite Z.pow_add_r by lia.
    rewrite <- Z.div_div by lia.
    apply Z.div_le_mono; [lia |].
    assert (H2 : (2 ^ 1 <= 2 ^ (ec - e))%Z) by (apply Z.pow_le_mono_r; lia).
    assert (Hq : (Zpos m / 2 ^ (ec - e) <= Zpos m / 2 ^ 1)%Z)
      by (apply Z.div_le_compat_l; lia).
    assert (Hh : (Zpos m / 2 ^ 1 < 2 ^ 52)%Z)
      by (apply Z.div_lt_upper_bound; lia).
    lia.
  - apply Z.div_le_mono; lia.
Qed.

Section Cast.
Context (unspecified : float -> Z).

Lemma astype_Z2float_small (k : Z) :
  (0 <= k <= 4)%Z -> astype_int32 unspecified (Z2float k) = k.
Proof.
  intros Hk.
  assert (Hc : (k = 0 \/ k = 1 \/ k = 2 \/ k = 3 \/ k = 4)%Z) by lia.
  destruct Hc as [-> | [-> | [-> | [-> | ->]]]]; vm_compute; reflexivity.
Qed.

(** [np.floor] followed by the integer conversion, on a number between 0
    and a normal bound whose floor is at most 4. *)
Lemma astype_floor_between (y hi : float) (mc : positive) (ec : Z) :
  Prim2SF hi = S754_finite false mc ec ->
  (2 ^ 52 <= Zpos mc)%Z -> (ec < 0)%Z -> (Z.shiftl (Zpos mc) ec <= 4)%Z ->
  PrimFloat.leb 0 y = true -> PrimFloat.leb y hi = true ->
  (0 <= astype_int32 unspecified (np_floor y) <= Z.shiftl (Zpos mc) ec)%Z.
Proof.
  intros Hhi Hmc Hec Hk H0 Hy.
  rewrite leb_spec in H0, Hy. rewrite Hhi in Hy.
  change (Prim2SF 0%float) with (S754_zero false) in H0.
  pose proof (Prim2SF_valid y) as Hv.
  unfold np_floor.
  destruct (Prim2SF y) as [s | s | | s m e] eqn:Hy2.
  - unfold astype_int32. rewrite Hy2.
    split; [lia | rewrite shiftl_neg_div by lia; apply Z.div_pos; lia].
  - destruct s; cbn in H0, Hy; discriminate.
  - cbn in H0. discriminate.
  - destruct s; [cbn in H0; discriminate |].
    apply valid_mantissa_bound in Hv.
    destruct (floor_le_bound m mc e ec Hv Hmc Hec Hy) as [He Hfl].
    rewrite (proj2 (Z.leb_gt 0 e)) by lia. cbn [cond_Zopp].
    rewrite astype_Z2float_small by lia. exact Hfl.
Qed.

End Cast.

Section Codes.
Context (unspecified : float -> Z).

Lemma joint_code64_range (v : float) :
  is_nan v = false ->
  (0 <= SoloContToriEnv64.joint_code unspecified v <= 4)%Z.
Proof.
  intros Hv.
  unfold SoloContToriEnv64.joint_code, SoloContToriEnv64.floored_joint.
  destruct (np_clip_between (v + one)%float zero c4_9 (add_one_not_nan v Hv)
              eq_refl eq_refl eq_refl) as [Hlo Hhi].
  exact (astype_floor_between unspecified _ c4_9 5516909543528858 (-50)
           eq_refl ltac:(lia) ltac:(lia) ltac:(vm_compute; discriminate)
           Hlo Hhi).
Qed.

Lemma grip_code64_range (v : float) :
  is_nan v = false ->
  (0 <= SoloContToriEnv64.grip_code unspecified v <= 1)%Z.
Proof.
  intros Hv.
  unfold SoloContToriEnv64.grip_code, SoloContToriEnv64.floored_grip.
  destruct (np_clip_between (v + one - one)%float zero c1_9
              (sub_one_not_nan _ (add_one_not_nan v Hv))
              eq_refl eq_refl eq_refl) as [Hlo Hhi].
  exact (astype_floor_between unspecified _ c1_9 8556839292003942 (-52)
           eq_refl ltac:(lia) ltac:(lia) ltac:(vm_compute; discriminate)
           Hlo Hhi).
Qed.

Lemma joint_code_zero : SoloContToriEnv64.joint_code unspecified zero = 1%Z.
Proof. vm_compute. reflexivity. Qed.

Lemma grip_code_zero : SoloContToriEnv64.grip_code unspecified zero = 0%Z.
Proof. vm_compute. reflexivity. Qed.

Lemma joint_codes_of_zero_array (n : nat) :
  map (SoloContToriEnv64.joint_code unspecified) (replicate n zero)
  = replicate n 1%Z.
Proof.
  induction n as [| n IH]; cbn [replicate map]; [reflexivity |].
  now rewrite joint_code_zero, IH.
Qed.

End Codes.

(** ** The store operations on an array that ends in two elements *)

Section Steps.
Context {E : Type}.
Implicit Types (h : gmap loc (list E)) (pre : list E) (action : loc).

Lemma map_inplace_run h action (a : list E) (f : E -> E) :
  h !! action = Some a ->
  NdArray.map_inplace f action h = (<[action := map f a]> h, Ok tt).
Proof. intros Hh. unfold NdArray.map_inplace. now rewrite Hh. Qed.

Lemma length_but2 pre (x y : E) : length (pre ++ [x; y]) - 2 = length pre.
Proof. rewrite length_app. cbn [length]. lia. Qed.

Lemma length_but1 pre (x y : E) : length (pre ++ [x; y]) - 1 = length pre + 1.
Proof. rewrite length_app. cbn [length]. lia. Qed.

Lemma get_init_run h action pre (x y : E) :
  h !! action = Some (pre ++ [x; y]) ->
  NdArray.get_init action 2 h = (h, Ok pre).
Proof.
  intros Hh. unfold NdArray.get_init. rewrite Hh.
  now rewrite length_but2, take_app_length.
Qed.

Lemma set_init_run h action pre (vs : list E) (x y : E) :
  h !! action = Some (pre ++ [x; y]) ->
  length vs = length pre ->
  NdArray.set_init action 2 vs h = (<[action := vs ++ [x; y]]> h, Ok tt).
Proof.
  intros Hh Hvs. unfold NdArray.set_init. rewrite Hh.
  rewrite length_but2, drop_app_length.
  now rewrite decide_True by exact Hvs.
Qed.

Lemma get_neg2_run h action pre (x y : E) :
  h !! action = Some (pre ++ [x; y]) ->
  NdArray.get_neg action 2 h = (h, Ok x).
Proof.
  intros Hh. unfold NdArray.get_neg. rewrite Hh.
  rewrite decide_True by (rewrite length_app; cbn [length]; lia).
  rewrite length_but2.
  now rewrite (list_lookup_middle pre [y] x (length pre) eq_refl).
Qed.

Lemma set_neg2_run h action pre (x y v : E) :
  h !! action = Some (pre ++ [x; y]) ->
  NdArray.set_neg action 2 v h = (<[action := pre ++ [v; y]]> h, Ok tt).
Proof.
  intros Hh. unfold NdArray.set_neg. rewrite Hh.
  rewrite decide_True by (rewrite length_app; cbn [length]; lia).
  rewrite length_but2.
  rewrite <- (Nat.add_0_r (length pre)) at 1.
  now rewrite insert_app_r.
Qed.

Lemma get_neg1_run h action pre (x y : E) :
  h !! action = Some (pre ++ [x; y]) ->
  NdArray.get_neg action 1 h = (h, Ok y).
Proof.
  intros Hh. unfold NdArray.get_neg. rewrite Hh.
  rewrite decide_True by (rewrite length_app; cbn [length]; lia).
  rewrite length_but1, lookup_app_r by lia.
  now replace (length pre + 1 - length pre) with 1 by lia.
Qed.

Lemma set_neg1_run h action pre (x y v : E) :
  h !! action = Some (pre ++ [x; y]) ->
  NdArray.set_neg action 1 v h = (<[action := pre ++ [x; v]]> h, Ok tt).
Proof.
  intros Hh. unfold NdArray.set_neg. rewrite Hh.
  rewrite decide_True by (rewrite length_app; cbn [length]; lia).
  rewrite length_but1. now rewrite insert_app_r.
Qed.

Lemma astype_list_run {T : Type} (conv : E -> T) h action (a : list E) :
  h !! action = Some a ->
  NdArray.astype_list conv action h = (h, Ok (map conv a)).
Proof. intros Hh. unfold NdArray.astype_list. now rewrite Hh. Qed.

Lemma split_last_two (a : list E) :
  2 <= length a ->
  exists x y,
    a = take (length a - 2) a ++ [x; y] /\
    drop (length a - 2) a = [x; y].
Proof.
  intros Hlen.
  assert (Hd : length (drop (length a - 2) a) = 2)
    by (rewrite length_drop; lia).
  destruct (drop (length a - 2) a) as [| x [| y [| ? ?]]] eqn:Hdrop;
    try discriminate.
  exists x, y. split; [| reflexivity].
  now rewrite <- Hdrop, take_drop.
Qed.

End Steps.

(** ** The run of the hook *)

Section Hook.
Context {tc : ToribashConstants}.
Context (unspecified : float -> Z).
Implicit Types (h : gmap loc (list float)) (a : list float) (action : loc).

Lemma preprocess_action64_run h action (js : list float) (g1 g2 : float) :
  h !! action = Some (js ++ [g1; g2]) ->
  SoloContToriEnv64._preprocess_action unspecified action h
  = (<[action := map SoloContToriEnv64.floored_joint js
                 ++ [SoloContToriEnv64.floored_grip g1;
                     SoloContToriEnv64.floored_grip g2]]> h,
     Ok (map (SoloContToriEnv64.joint_code unspecified) js
         ++ [SoloContToriEnv64.grip_code unspecified g1;
             SoloContToriEnv64.grip_code unspecified g2],
         replicate NUM_CONTROLLABLES 1%Z)).
Proof.
  intros Hh. unfold SoloContToriEnv64._preprocess_action.
  set (js1 := map (fun x => (x + one)%float) js).
  assert (Hfl : map np_floor (map (fun x => np_clip x zero c4_9) js1)
                = map SoloContToriEnv64.floored_joint js)
    by (unfold js1; rewrite !map_map; reflexivity).
  assert (Hlen : length (map SoloContToriEnv64.floored_joint js) = length js1)
    by (unfold js1; now rewrite !length_map).
  rewrite (bind_ok _ _ _ _ _ (map_inplace_run h action _ _ Hh)).
  rewrite map_app. cbn [map]. fold js1.
  erewrite bind_ok by (eapply get_init_run, lookup_insert_eq).
  rewrite Hfl.
  erewrite bind_ok by
    (eapply set_init_run; [apply lookup_insert_eq | exact Hlen]).
  rewrite insert_insert_eq.
  erewrite bind_ok by (eapply get_neg2_run, lookup_insert_eq).
  erewrite bind_ok by (eapply set_neg2_run, lookup_insert_eq).
  rewrite insert_insert_eq.
  erewrite bind_ok by (eapply get_neg1_run, lookup_insert_eq).
  erewrite bind_ok by (eapply set_neg1_run, lookup_insert_eq).
  rewrite insert_insert_eq.
  erewrite bind_ok by (eapply astype_list_run, lookup_insert_eq).
  unfold ret. rewrite map_app, map_map. reflexivity.
Qed.

(** C3 (as the code has it). With NUM_CONTROLLABLES = NUM_JOINTS + 2, on
    every float64 array of NUM_CONTROLLABLES numbers none of which is a nan
    the method returns a pair: in player 1's sequence each of the first
    NUM_JOINTS components v has become floor(clip(v (+) 1, 0, 4.9)), a
    number among 0..4, and each of the last two has become
    floor(clip((v (+) 1) (-) 1, 0, 1.9)), 0 or 1, where (+) and (-) are the
    rounded float64 operations; player 2's sequence is NUM_CONTROLLABLES
    ones.  On the all-zero array the joints are all 1 and the grips 0. *)
Theorem preprocess_action_discretises_float64 h action a :
  NUM_CONTROLLABLES = NUM_JOINTS + 2 ->
  h !! action = Some a ->
  length a = NUM_CONTROLLABLES ->
  Forall (fun v => is_nan v = false) a ->
  exists h' plr0,
    SoloContToriEnv64._preprocess_action unspecified action h
    = (h', Ok (plr0, replicate NUM_CONTROLLABLES 1%Z)) /\
    plr0 = map (SoloContToriEnv64.joint_code unspecified) (take NUM_JOINTS a)
           ++ map (SoloContToriEnv64.grip_code unspecified) (drop NUM_JOINTS a) /\
    Forall (fun c => (0 <= c <= 4)%Z) (take NUM_JOINTS plr0) /\
    Forall (fun c => (0 <= c <= 1)%Z) (drop NUM_JOINTS plr0) /\
    (a = replicate NUM_CONTROLLABLES zero ->
     plr0 = replicate NUM_JOINTS 1%Z ++ [0%Z; 0%Z]).
Proof.
  intros Hnc Hh Hlen Hnan. rewrite Hnc in Hlen.
  destruct (split_last_two a) as (g1 & g2 & Ha & Hdrop); [lia |].
  replace (length a - 2) with NUM_JOINTS in Ha, Hdrop by lia.
  assert (Hjs : length (take NUM_JOINTS a) = NUM_JOINTS)
    by (rewrite length_take; lia).
  pose proof Hh as Hh'. rewrite Ha in Hh'.
  eexists _, _. split; [exact (preprocess_action64_run h action _ g1 g2 Hh') |].
  rewrite Hdrop. cbn [map].
  split; [reflexivity |].
  assert (Hcodes : length (map (SoloContToriEnv64.joint_code unspecified)
                             (take NUM_JOINTS a)) = NUM_JOINTS)
    by (now rewrite length_map).
  rewrite <- (take_drop NUM_JOINTS a), Hdrop in Hnan.
  apply Forall_app in Hnan as [Hnj Hng].
  apply Forall_cons in Hng as [Hn1 Hng].
  apply Forall_cons in Hng as [Hn2 _].
  split; [| split].
  - rewrite take_app_length' by (now rewrite Hcodes).
    apply Forall_fmap. eapply Forall_impl; [exact Hnj |].
    intros v Hv. now apply joint_code64_range.
  - rewrite drop_app_length' by (now rewrite Hcodes).
    do 2 (constructor; [now apply grip_code64_range |]). constructor.
  - intros Hzero. rewrite Hzero, Hnc in Hdrop.
    rewrite drop_replicate_add in Hdrop. cbn in Hdrop.
    injection Hdrop as <- <-.
    rewrite Hzero, Hnc, take_replicate_add, !grip_code_zero.
    now rewrite joint_codes_of_zero_array.
Qed.

(** X6. The continuous action hook finds the grips by counting from the end
    and never consults NUM_JOINTS: on any float64 array of at least two
    elements it returns, player 1's sequence has as many entries as the
    array, the last two are the grip codes
    floor(clip((v (+) 1) (-) 1, 0, 1.9)) and every earlier one is the joint
    code floor(clip(v (+) 1, 0, 4.9)), with the rounded float64
    operations. *)
Theorem preprocess_action_counts_from_end_float64 h action a :
  h !! action = Some a ->
  2 <= length a ->
  exists h' plr0,
    SoloContToriEnv64._preprocess_action unspecified action h
    = (h', Ok (plr0, replicate NUM_CONTROLLABLES 1%Z)) /\
    length plr0 = length a /\
    (forall i v, i < length a - 2 -> a !! i = Some v ->
                 plr0 !! i = Some (SoloContToriEnv64.joint_code unspecified v)) /\
    (forall i v, length a - 2 <= i -> a !! i = Some v ->
                 plr0 !! i = Some (SoloContToriEnv64.grip_code unspecified v)).
Proof.
  intros Hh Hlen.
  destruct (split_last_two a Hlen) as (g1 & g2 & Ha & Hdrop).
  assert (Hjs : length (take (length a - 2) a) = length a - 2)
    by (rewrite length_take; lia).
  pose proof Hh as Hh'. rewrite Ha in Hh'.
  eexists _, _.
  split; [exact (preprocess_action64_run h action _ g1 g2 Hh') |].
  split; [rewrite length_app, length_map, Hjs; cbn [length]; lia |].
  split.
  - intros i v Hi Hv.
    rewrite lookup_app_l by (rewrite length_map, Hjs; exact Hi).
    rewrite list_lookup_fmap, lookup_take_lt by exact Hi.
    now rewrite Hv.
  - intros i v Hi Hv.
    rewrite lookup_app_r by (rewrite length_map, Hjs; exact Hi).
    rewrite length_map, Hjs.
    assert (Hv' : drop (length a - 2) a !! (i - (length a - 2)) = Some v).
    { rewrite lookup_drop. rewrite <- Hv. f_equal. lia. }
    rewrite Hdrop in Hv'.
    destruct (i - (length a - 2)) as [| [| k]]; cbn in Hv' |- *;
      [now injection Hv' as -> | now injection Hv' as -> | discriminate].
Qed.

End Hook.

End Float64Facts.

(** ** The binary64 hook on the sample data *)

Lemma to_R_below_one :
  Float64.to_R Float64.below_one = (IZR 9007199254740991 / IZR 9007199254740992)%R.
Proof. reflexivity. Qed.

(** Adding 1 to the double just below 1 rounds up to 2, and taking 1 away
    again gives 1. *)
Example below_one_plus_one :
  PrimFloat.add Float64.below_one Float64.one = Float64.Z2float 2 /\
  PrimFloat.sub (PrimFloat.add Float64.below_one Float64.one) Float64.one
  = Float64.one.
Proof. split; vm_compute; reflexivity. Qed.

Example codes_below_one :
  SoloContToriEnv64.joint_code int32_indefinite Float64.below_one = 2%Z /\
  SoloContToriEnv64.grip_code int32_indefinite Float64.below_one = 1%Z.
Proof. split; vm_compute; reflexivity. Qed.

(** The double just below 1 lies in the box.  On the array of 22 such
    numbers the hook returns the joint state 2 and the grip 1, because
    adding 1 rounds up to 2, where floor(clip(v+1, 0, 4.9)) and
    floor(clip(v, 0, 1.9)) of the real number v are 1 and 0. *)
Lemma preprocess_action_rounds_below_one :
  (0 <= Float64.to_R Float64.below_one <= 39 / 10)%R /\
  exists h' plr0,
    SoloContToriEnv64._preprocess_action (tc := toribash) int32_indefinite
      1%positive below_one_store
    = (h', Ok (plr0, replicate 22 1%Z)) /\
    plr0 = replicate 20 2%Z ++ [1%Z; 1%Z] /\
    map joint_code (map Float64.to_R (replicate 20 Float64.below_one))
    ++ map grip_code (map Float64.to_R (replicate 2 Float64.below_one))
    = replicate 20 1%Z ++ [0%Z; 0%Z] /\
    plr0 <> map joint_code (map Float64.to_R (replicate 20 Float64.below_one))
            ++ map grip_code (map Float64.to_R (replicate 2 Float64.below_one)).
Proof.
  assert (Hj : joint_code (Float64.to_R Float64.below_one) = 1%Z).
  { rewrite to_R_below_one. unfold joint_code, np_clip.
    rewrite Rmax_left, Rmin_left by lra. apply Zfloor_eq. lra. }
  assert (Hg : grip_code (Float64.to_R Float64.below_one) = 0%Z).
  { rewrite to_R_below_one. unfold grip_code, np_clip.
    rewrite Rmax_left, Rmin_left by lra. apply Zfloor_eq. lra. }
  assert (Hreal :
    map joint_code (map Float64.to_R (replicate 20 Float64.below_one))
    ++ map grip_code (map Float64.to_R (replicate 2 Float64.below_one))
    = replicate 20 1%Z ++ [0%Z; 0%Z])
    by (cbn [replicate map app]; now rewrite Hj, Hg).
  split; [rewrite to_R_below_one; lra |].
  eexists _, (replicate 20 2%Z ++ [1%Z; 1%Z]).
  split; [| split; [reflexivity | split; [exact Hreal |]]].
  - rewrite (Float64Facts.preprocess_action64_run (tc := toribash)
               int32_indefinite below_one_store 1%positive
               (replicate 20 Float64.below_one)
               Float64.below_one Float64.below_one eq_refl).
    destruct codes_below_one as [Hcj Hcg].
    cbn [replicate map]. rewrite !Hcj, !Hcg. reflexivity.
  - rewrite Hreal. discriminate.
Qed.

(** C3 on the float64 array of 22 zeros. *)
Lemma preprocess_action_discretises_float64_witness :
  exists h',
    SoloContToriEnv64._preprocess_action (tc := toribash) int32_indefinite
      1%positive zeros_float_store
    = (h', Ok (replicate 20 1%Z ++ [0%Z; 0%Z], replicate 22 1%Z)).
Proof.
  destruct (Float64Facts.preprocess_action_discretises_float64 (tc := toribash)
              int32_indefinite zeros_float_store 1%positive
              (replicate 22 Float64.zero) eq_refl eq_refl eq_refl
              ltac:(apply Forall_replicate; reflexivity))
    as (h' & plr0 & Hrun & _ & _ & _ & Hzeros).
  exists h'. rewrite Hrun, (Hzeros eq_refl). reflexivity.
Defined.

(** X6 on the float64 array of 22 zeros. *)
Lemma preprocess_action_counts_from_end_float64_witness :
  exists h' plr0,
    SoloContToriEnv64._preprocess_action (tc := toribash) int32_indefinite
      1%positive zeros_float_store
    = (h', Ok (plr0, replicate 22 1%Z)) /\
    length plr0 = 22.
Proof.
  destruct (Float64Facts.preprocess_action_counts_from_end_float64 (tc := toribash)
              int32_indefinite zeros_float_store 1%positive
              (replicate 22 Float64.zero) eq_refl ltac:(cbn; lia))
    as (h' & plr0 & Hrun & Hlen & _).
  exists h', plr0. split; [exact Hrun | exact Hlen].
Defined.

(** ** Rewards that do not depend on how the machine rounds *)

Section RewardRobust.
Local Open Scope R_scope.

Lemma sqrt_le_of_le (x y : R) : x <= y -> sqrt x <= sqrt y.
Proof. apply sqrt_le_1_alt. Qed.

(** X10. Going back earns the negated reward, and the sign of
    [reward_run_away] follows the squared distance of the head from the
    origin: the reward is positive only if that squared distance grew and
    negative only if it shrank. *)
Theorem reward_run_away_reversed (s1 s2 : State) (p1 p2 : list R) :
  index00 (limb_positions s1) = Ok p1 ->
  index00 (limb_positions s2) = Ok p2 ->
  exists r,
    reward_run_away s1 s2 = Ok r /\
    reward_run_away s2 s1 = Ok (- r) /\
    (0 < r -> np_sum (np_square p1) < np_sum (np_square p2)) /\
    (r < 0 -> np_sum (np_square p2) < np_sum (np_square p1)).
Proof.
  intros H1 H2. eexists.
  split; [exact (reward_run_away_ok s1 s2 p1 p2 H1 H2) |].
  rewrite (reward_run_away_ok s2 s1 p2 p1 H2 H1).
  split; [f_equal; ring |].
  split; intros Hr.
  - destruct (Rlt_le_dec (np_sum (np_square p1)) (np_sum (np_square p2)))
      as [Hlt | Hle]; [exact Hlt |].
    apply sqrt_le_of_le in Hle. lra.
  - destruct (Rlt_le_dec (np_sum (np_square p2)) (np_sum (np_square p1)))
      as [Hlt | Hle]; [exact Hlt |].
    apply sqrt_le_of_le in Hle. lra.
Qed.

Lemma log10_lt_4 (d : R) : 1 < d < 10000 -> log10 d < 4.
Proof.
  intros [Hlo Hhi]. unfold log10.
  pose proof ln_10_pos as H10.
  apply (Rmult_lt_reg_r (ln 10)); [exact H10 |].
  replace (ln d / ln 10 * ln 10) with (ln d) by (field; lra).
  replace (4 * ln 10) with (ln (10 ^ 4)).
  - apply ln_increasing; lra.
  - rewrite ln_pow by lra. simpl. ring.
Qed.

(** X14. More injury does not always earn more: [reward_self_destruct]
    pays exactly 1 for an injury delta of 1, and more than 0 but strictly
    less than 1 for every delta above 1 and up to 1000. *)
Theorem reward_self_destruct_drops_above_1
    (old1 new1 old2 new2 : State) :
  injury_delta old1 new1 = 1 ->
  1 < injury_delta old2 new2 <= 1000 ->
  reward_self_destruct old1 new1 = 1 /\
  0 < reward_self_destruct old2 new2 < reward_self_destruct old1 new1.
Proof.
  unfold injury_delta. intros H1 H2.
  assert (Hr1 : reward_self_destruct old1 new1 = 1).
  { unfold reward_self_destruct. rewrite H1.
    destruct (Rlt_dec 1 1); [lra | reflexivity]. }
  split; [exact Hr1 |]. rewrite Hr1.
  unfold reward_self_destruct.
  destruct (Rlt_dec 1 (plr0_injury new2 - plr0_injury old2)) as [Hgt | Hle];
    [| lra].
  cbn zeta. pose proof (log10_pos _ Hgt).
  assert (H4 : log10 (plr0_injury new2 - plr0_injury old2) < 4)
    by (apply log10_lt_4; lra).
  lra.
Qed.

End RewardRobust.

(** X10 (the reversed step) on heads at (3,4,0) and (6,8,0). *)
Lemma reward_run_away_reversed_witness :
  exists r,
    reward_run_away (state_of 0 3 4 0) (state_of 0 6 8 0) = Ok r /\
    reward_run_away (state_of 0 6 8 0) (state_of 0 3 4 0) = Ok (- r)%R.
Proof.
  destruct (reward_run_away_reversed (state_of 0 3 4 0) (state_of 0 6 8 0)
              [3; 4; 0]%R [6; 8; 0]%R eq_refl eq_refl)
    as (r & H12 & H21 & _).
  exists r. split; [exact H12 | exact H21].
Defined.

(** X14 (the drop above 1) on deltas of 1 and of 10. *)
Lemma reward_self_destruct_drops_above_1_witness :
  reward_self_destruct (state_of 0 0 0 0) (state_of 1 0 0 0) = 1%R /\
  (0 < reward_self_destruct (state_of 0 0 0 0) (state_of 10 0 0 0)
     < reward_self_destruct (state_of 0 0 0 0) (state_of 1 0 0 0))%R.
Proof.
  apply (reward_self_destruct_drops_above_1
           (state_of 0 0 0 0) (state_of 1 0 0 0)
           (state_of 0 0 0 0) (state_of 10 0 0 0)).
  - unfold injury_delta. simpl. lra.
  - unfold injury_delta. simpl. lra.
Defined.
